(** * Academic Research Bot API: a shallow embedding of [main.py]

    The development follows the source file top-down: Python values and the
    builtins the program uses, the five source adapters, the cache key, the
    aggregator [search_all_sources] and the [/search] endpoint.

    Conventions.
    - A Python [str] is a Rocq [string]; each [ascii] stands for one character
      (code points below 256).  [str.encode()] is written out as UTF-8.
    - Exceptions are the ones of class [Exception]; a computation is a
      function from a state to a [result] and the state it leaves behind, so
      that what was mutated before a [raise] stays mutated, as in Python.
    - What the network, the clock and the cache backend answer is an input of
      the model ([world]); [hashlib.md5] is written out in full. *)

From Stdlib Require Import ZArith Lia Ascii String.
From stdpp Require Import gmap strings list sorting pretty.

Set Warnings "-register-all".
Local Open Scope Z_scope.
Local Open Scope string_scope.

(** ** Exceptions and computations *)

Inductive exn : Set :=
| AttributeError | TypeError | ValueError | IndexError | KeyError
| RuntimeError
| UpstreamError.   (* transport failure, timeout, JSON or XML parse error *)

Inductive result (A : Type) : Type :=
| Ok (a : A)
| Raise (e : exn).
Arguments Ok {A} a.
Arguments Raise {A} e.

Global Instance result_ret : MRet result := λ A a, Ok a.
Global Instance result_bind : MBind result := λ A B f r,
  match r with
  | Ok a => f a
  | Raise e => Raise e
  end.

(** A list comprehension whose element expression may raise. *)
Fixpoint map_r {A B} (f : A → result B) (xs : list A) : result (list B) :=
  match xs with
  | [] => Ok []
  | x :: rest => y ← f x; ys ← map_r f rest; Ok (y :: ys)
  end.

(** A loop that threads an accumulator and may raise. *)
Fixpoint fold_r {A B} (f : B → A → result B) (xs : list A) (acc : B) : result B :=
  match xs with
  | [] => Ok acc
  | x :: rest => acc' ← f acc x; fold_r f rest acc'
  end.

(** Computations over a mutable state [S]. *)
Definition M (S A : Type) : Type := S → result A * S.

Global Instance M_ret {S} : MRet (M S) := λ A a s, (Ok a, s).
Global Instance M_bind {S} : MBind (M S) := λ A B f m s,
  match m s with
  | (Ok a, s') => f a s'
  | (Raise e, s') => (Raise e, s')
  end.

Definition raise {S A} (e : exn) : M S A := λ s, (Raise e, s).
Definition lift {S A} (r : result A) : M S A := λ s, (r, s).
Definition get_state {S} : M S S := λ s, (Ok s, s).
Definition modify {S} (f : S → S) : M S unit := λ s, (Ok tt, f s).

(** [try: body  except Exception: handler] *)
Definition try_except {S A} (body : M S A) (handler : exn → M S A) : M S A :=
  λ s, match body s with
       | (Ok a, s') => (Ok a, s')
       | (Raise e, s') => handler e s'
       end.

(** [for x in xs: body x] *)
Fixpoint for_each {S A} (xs : list A) (body : A → M S unit) : M S unit :=
  match xs with
  | [] => mret tt
  | x :: rest => body x ;; for_each rest body
  end.

(** ** Python values *)

(** A [float] is kept as its truth value and its [repr]: the program only
    tests floats for truth, prints them, or fails on them.  A [dict] is its
    items in insertion order, with string keys. *)
Inductive pyval : Type :=
| PNone
| PBool (b : bool)
| PInt (z : Z)
| PFloat (nonzero : bool) (repr : string)
| PStr (s : string)
| PList (l : list pyval)
| PDict (d : list (string * pyval)).

Definition NA : pyval := PStr "N/A".

Fixpoint assoc {A} (k : string) (d : list (string * A)) : option A :=
  match d with
  | [] => None
  | (k', v) :: rest => if decide (k' = k) then Some v else assoc k rest
  end.

(** [v.get(k, default)] *)
Definition py_get (v : pyval) (k : string) (default : pyval) : result pyval :=
  match v with
  | PDict d => Ok (from_option id default (assoc k d))
  | _ => Raise AttributeError
  end.

(** [bool(v)] *)
Definition truthy (v : pyval) : bool :=
  match v with
  | PNone => false
  | PBool b => b
  | PInt z => negb (z =? 0)%Z
  | PFloat nz _ => nz
  | PStr s => negb (String.eqb s "")
  | PList l => match l with [] => false | _ => true end
  | PDict d => match d with [] => false | _ => true end
  end.

(** [a or b] *)
Definition py_or (a b : pyval) : pyval := if truthy a then a else b.

Fixpoint chars (s : string) : list string :=
  match s with
  | EmptyString => []
  | String c rest => String c EmptyString :: chars rest
  end.

(** [iter(v)], run to the end: the items a [for] loop visits. *)
Definition py_iter (v : pyval) : result (list pyval) :=
  match v with
  | PList l => Ok l
  | PStr s => Ok (PStr <$> chars s)
  | PDict d => Ok ((λ kv, PStr kv.1) <$> d)
  | _ => Raise TypeError
  end.

(** [s[:n]] on a string *)
Fixpoint str_take (n : nat) (s : string) : string :=
  match n, s with
  | S n', String c rest => String c (str_take n' rest)
  | _, _ => EmptyString
  end.

(** [v[:n]]: strings and lists slice, [None], numbers and dicts raise. *)
Definition py_slice_to (n : nat) (v : pyval) : result pyval :=
  match v with
  | PStr s => Ok (PStr (str_take n s))
  | PList l => Ok (PList (take n l))
  | _ => Raise TypeError
  end.

(** [sep.join(parts)] on strings *)
Fixpoint join (sep : string) (parts : list string) : string :=
  match parts with
  | [] => ""
  | [p] => p
  | p :: rest => p +:+ sep +:+ join sep rest
  end.

Fixpoint all_str (vs : list pyval) : result (list string) :=
  match vs with
  | [] => Ok []
  | PStr s :: rest =>
      match all_str rest with
      | Ok ss => Ok (s :: ss)
      | Raise e => Raise e
      end
  | _ :: _ => Raise TypeError
  end.

(** [sep.join(vs)] on a list of values: every item must be a [str]. *)
Definition py_join (sep : string) (vs : list pyval) : result string :=
  match all_str vs with
  | Ok ss => Ok (join sep ss)
  | Raise e => Raise e
  end.


(** ** [str] and [repr] *)

Definition hex_digit (n : N) : ascii :=
  ascii_of_N (if (n <? 10)%N then 48 + n else 87 + n)%N.

(** [str.isprintable] on one character *)
Definition printable (c : ascii) : bool :=
  let n := N_of_ascii c in
  ((32 <=? n) && (n <? 127) || (161 <=? n) && negb (n =? 173))%N.

Definition backslash : ascii := ascii_of_N 92.
Definition double_quote : ascii := ascii_of_N 34.
Definition single_quote : ascii := ascii_of_N 39.

Definition escaped (c : ascii) : string := String backslash (String c EmptyString).

Definition repr_char (quote c : ascii) : string :=
  let n := N_of_ascii c in
  if decide (c = quote) then escaped c
  else if (n =? 92)%N then escaped backslash
  else if (n =? 9)%N then escaped "t"
  else if (n =? 10)%N then escaped "n"
  else if (n =? 13)%N then escaped "r"
  else if printable c then String c EmptyString
  else String backslash
         (String "x" (String (hex_digit (n / 16)) (String (hex_digit (n mod 16)) EmptyString))).

Fixpoint str_mem (c : ascii) (s : string) : bool :=
  match s with
  | EmptyString => false
  | String c' rest => if decide (c' = c) then true else str_mem c rest
  end.

Fixpoint str_concat_map (f : ascii → string) (s : string) : string :=
  match s with
  | EmptyString => ""
  | String c rest => f c +:+ str_concat_map f rest
  end.

(** [repr(s)] of a [str]: single quotes unless the text has a single quote
    and no double quote. *)
Definition repr_str (s : string) : string :=
  let quote : ascii :=
    if str_mem single_quote s && negb (str_mem double_quote s) then double_quote
    else single_quote in
  String quote (str_concat_map (repr_char quote) s) +:+ String quote EmptyString.

Fixpoint py_repr (v : pyval) : string :=
  match v with
  | PNone => "None"
  | PBool b => if b then "True" else "False"
  | PInt z => pretty z
  | PFloat _ r => r
  | PStr s => repr_str s
  | PList l => "[" +:+ join ", " (map py_repr l) +:+ "]"
  | PDict d =>
      "{" +:+ join ", " (map (λ '(k, x), repr_str k +:+ ": " +:+ py_repr x) d) +:+ "}"
  end.

(** [str(v)] *)
Definition py_str (v : pyval) : string :=
  match v with
  | PStr s => s
  | _ => py_repr v
  end.

(** The text of an f-string field: [None] prints as [None]. *)
Definition fmt_text (t : option string) : string :=
  match t with Some s => s | None => "None" end.

(** [str.isspace] on one character *)
Definition is_space (c : ascii) : bool :=
  let n := N_of_ascii c in
  ((9 <=? n) && (n <=? 13) || (28 <=? n) && (n <=? 32) || (n =? 133) || (n =? 160))%N.

Fixpoint lstrip (s : string) : string :=
  match s with
  | String c rest => if is_space c then lstrip rest else s
  | EmptyString => EmptyString
  end.

(** [s.strip()] *)
Definition strip (s : string) : string :=
  String.rev (lstrip (String.rev (lstrip s))).

(** ** XML trees ([xml.etree.ElementTree]) *)

Inductive element : Type :=
| Element (tag : string) (text : option string) (children : list element).

Definition tag_of (e : element) : string := match e with Element t _ _ => t end.
Definition text_of (e : element) : option string := match e with Element _ x _ => x end.
Definition children_of (e : element) : list element := match e with Element _ _ cs => cs end.

(** Every element below [e], in document order ([e] itself excluded). *)
Fixpoint descendants (e : element) : list element :=
  match e with
  | Element _ _ cs => flat_map (λ c, c :: descendants c) cs
  end.

Definition has_tag (t : string) (e : element) : bool := bool_decide (tag_of e = t).

(** [e.findall('t')] and [e.find('t')]: direct children *)
Definition findall_child (t : string) (e : element) : list element :=
  List.filter (has_tag t) (children_of e).
Definition find_child (t : string) (e : element) : option element :=
  head (findall_child t e).

(** [e.findall('.//t')] and [e.find('.//t')] *)
Definition findall_desc (t : string) (e : element) : list element :=
  List.filter (has_tag t) (descendants e).
Definition find_desc (t : string) (e : element) : option element :=
  head (findall_desc t e).

(** [e.find('.//t1/t2')] *)
Definition find_desc_child (t1 t2 : string) (e : element) : option element :=
  head (flat_map (findall_child t2) (findall_desc t1 e)).

Definition atom (name : string) : string := "{http://www.w3.org/2005/Atom}" +:+ name.

(** [v != s] for a string literal [s] *)
Definition py_ne_str (v : pyval) (s : string) : bool :=
  match v with
  | PStr s' => negb (String.eqb s' s)
  | _ => true
  end.

(** [e.text] as a value *)
Definition text_val (e : element) : pyval :=
  match text_of e with Some s => PStr s | None => PNone end.

(** ** The common record and the upstream services *)

Record NormalizedRecord : Type := {
  source : string;
  title : pyval;
  authors : string;
  year : pyval;
  abstract : pyval;
  url : pyval;
  citations : pyval;
  venue : pyval
}.

(** What [scholarly.search_pubs] hands back: an iterator that yields some
    publications and then either stops or raises. *)
Record pub_stream : Type := {
  yielded : list pyval;
  then_raises : bool
}.

(** The five upstream services, as functions of the request parameters the
    adapters send.  A [Raise] is a transport error, a timeout or a body that
    [response.json()] or [ET.fromstring] rejects. *)
Record upstream : Type := {
  scholarly_search_pubs : string → result pub_stream;
  pubmed_esearch : string → Z → result pyval;       (* term, retmax *)
  pubmed_efetch : string → result element;          (* id *)
  arxiv_query : string → Z → result element;        (* search_query, max_results *)
  semantic_search : string → Z → result pyval;      (* query, limit *)
  openalex_works : string → Z → result pyval        (* search, per-page *)
}.

(** [results.append(r)] *)
Definition append (r : NormalizedRecord) : M (list NormalizedRecord) unit :=
  modify (λ results, (results ++ [r])%list).

(** [results = []; try: body; except Exception: print(...); return results] *)
Definition adapter (body : M (list NormalizedRecord) unit) : result (list NormalizedRecord) :=
  match try_except body (λ _, mret tt) [] with
  | (Ok _, results) => Ok results
  | (Raise e, _) => Raise e
  end.

(** ** Google Scholar *)

(** [', '.join(bib.get('author', [])) if isinstance(bib.get('author'), list)
     else str(bib.get('author', 'N/A'))] *)
Definition scholar_authors (bib : pyval) : result string :=
  author ← py_get bib "author" PNone;
  match author with
  | PList _ => l ← py_get bib "author" (PList []); l ← py_iter l; py_join ", " l
  | _ => a ← py_get bib "author" NA; Ok (py_str a)
  end.

Definition scholar_record (pub bib : pyval) : result NormalizedRecord :=
  title ← py_get bib "title" NA;
  authors ← scholar_authors bib;
  pub_year ← py_get bib "pub_year" NA;
  abstract ← py_get bib "abstract" NA;
  abstract ← py_slice_to 500 abstract;
  eprint_url ← py_get pub "eprint_url" NA;
  url ← py_get pub "pub_url" eprint_url;
  citations ← py_get pub "num_citations" (PInt 0);
  venue ← py_get bib "venue" NA;
  Ok {| source := "Google Scholar"; title := title; authors := authors;
        year := PStr (py_str pub_year); abstract := abstract; url := url;
        citations := citations; venue := venue |}.

(** The loop over [enumerate(search_query)].  The progress line printed after
    the append slices the title, which raises on a title that is not text. *)
Fixpoint scholar_loop (num_results i : Z) (pubs : list pyval) (then_raises : bool)
    : M (list NormalizedRecord) unit :=
  match pubs with
  | [] => if then_raises then raise UpstreamError else mret tt
  | pub :: rest =>
      if (i >=? num_results)%Z then mret tt
      else
        bib ← lift (py_get pub "bib" (PDict []));
        r ← lift (scholar_record pub bib);
        append r;;
        lift (t ← py_get bib "title" NA; py_slice_to 50 t);;
        scholar_loop num_results (i + 1) rest then_raises
  end.

(** The [try] block. *)
Definition scholar_body (up : upstream) (query : string) (num_results : Z)
    : M (list NormalizedRecord) unit :=
  search_query ← lift (scholarly_search_pubs up query);
  scholar_loop num_results 0 (yielded search_query) (then_raises search_query).

Definition search_google_scholar (up : upstream) (query : string) (num_results : Z)
    : result (list NormalizedRecord) :=
  adapter (scholar_body up query num_results).

(** ** PubMed *)

Definition pubmed_author (author : element) : option string :=
  match find_child "LastName" author, find_child "ForeName" author with
  | Some lastname, Some forename =>
      Some (fmt_text (text_of forename) +:+ " " +:+ fmt_text (text_of lastname))
  | _, _ => None
  end.

Definition pubmed_authors (article : element) : list string :=
  omap pubmed_author (findall_desc "Author" article).

Definition pubmed_record (article : element) : result NormalizedRecord :=
  let title := from_option text_val NA (find_desc "ArticleTitle" article) in
  let authors := pubmed_authors article in
  let abstract := from_option text_val NA (find_desc "AbstractText" article) in
  let year := from_option text_val NA (find_desc_child "PubDate" "Year" article) in
  let pmid := from_option (λ e, fmt_text (text_of e)) "N/A" (find_desc "PMID" article) in
  abstract ← (if py_ne_str abstract "N/A" then py_slice_to 500 abstract else Ok NA);
  Ok {| source := "PubMed"; title := title; authors := join ", " authors;
        year := year; abstract := abstract;
        url := PStr ("https://pubmed.ncbi.nlm.nih.gov/" +:+ pmid +:+ "/");
        citations := NA; venue := PStr "PubMed" |}.

(** The [try] block; [return results] on an empty id list ends it early. *)
Definition pubmed_body (up : upstream) (query : string) (num_results : Z)
    : M (list NormalizedRecord) unit :=
  data ← lift (pubmed_esearch up query num_results);
  esearchresult ← lift (py_get data "esearchresult" (PDict []));
  ids ← lift (py_get esearchresult "idlist" (PList []));
  if negb (truthy ids) then mret tt
  else
    id_items ← lift (py_iter ids);
    id_param ← lift (py_join "," id_items);
    root ← lift (pubmed_efetch up id_param);
    for_each (findall_desc "PubmedArticle" root) (λ article,
      try_except (r ← lift (pubmed_record article); append r) (λ _, mret tt)).

Definition search_pubmed (up : upstream) (query : string) (num_results : Z)
    : result (list NormalizedRecord) :=
  adapter (pubmed_body up query num_results).

(** ** arXiv *)

(** [[author.find('atom:name', namespace).text
      for author in entry.findall('atom:author', namespace)]] *)
Definition arxiv_authors (entry : element) : result (list pyval) :=
  map_r (λ author,
           match find_child (atom "name") author with
           | Some name => Ok (text_val name)
           | None => Raise AttributeError
           end) (findall_child (atom "author") entry).

Definition arxiv_record (entry : element) : result NormalizedRecord :=
  title ← match find_child (atom "title") entry with
          | Some e => match text_of e with
                      | Some s => Ok (PStr (strip s))
                      | None => Raise AttributeError
                      end
          | None => Ok NA
          end;
  authors ← arxiv_authors entry;
  summary ← match find_child (atom "summary") entry with
            | Some e => match text_of e with
                        | Some s => Ok (PStr (strip s))
                        | None => Raise AttributeError
                        end
            | None => Ok NA
            end;
  published ← match find_child (atom "published") entry with
              | Some e => py_slice_to 4 (text_val e)
              | None => Ok NA
              end;
  let link := from_option text_val NA (find_child (atom "id") entry) in
  authors ← py_join ", " authors;
  abstract ← (if py_ne_str summary "N/A" then py_slice_to 500 summary else Ok NA);
  Ok {| source := "arXiv"; title := title; authors := authors; year := published;
        abstract := abstract; url := link; citations := NA;
        venue := PStr "arXiv Preprint" |}.

Definition arxiv_body (up : upstream) (query : string) (num_results : Z)
    : M (list NormalizedRecord) unit :=
  root ← lift (arxiv_query up ("all:" +:+ query) num_results);
  for_each (findall_child (atom "entry") root) (λ entry,
    r ← lift (arxiv_record entry); append r).

Definition search_arxiv (up : upstream) (query : string) (num_results : Z)
    : result (list NormalizedRecord) :=
  adapter (arxiv_body up query num_results).

(** ** Semantic Scholar *)

(** [[a.get('name', '') for a in paper.get('authors', [])]] *)
Definition semantic_authors (paper : pyval) : result (list pyval) :=
  authorlist ← py_get paper "authors" (PList []);
  authorlist ← py_iter authorlist;
  map_r (λ a, py_get a "name" (PStr "")) authorlist.

Definition semantic_record (paper : pyval) : result NormalizedRecord :=
  authors ← semantic_authors paper;
  title ← py_get paper "title" NA;
  authors ← py_join ", " authors;
  year ← py_get paper "year" NA;
  abstract ← py_get paper "abstract" NA;
  abstract ← py_slice_to 500 (py_or abstract NA);
  url ← py_get paper "url" NA;
  citations ← py_get paper "citationCount" (PInt 0);
  venue ← py_get paper "venue" NA;
  Ok {| source := "Semantic Scholar"; title := title; authors := authors;
        year := PStr (py_str year); abstract := abstract; url := url;
        citations := citations; venue := venue |}.

Definition semantic_body (up : upstream) (query : string) (num_results : Z)
    : M (list NormalizedRecord) unit :=
  data ← lift (semantic_search up query num_results);
  papers ← lift (py_get data "data" (PList []));
  papers ← lift (py_iter papers);
  for_each papers (λ paper, r ← lift (semantic_record paper); append r).

Definition search_semantic_scholar_async (up : upstream) (query : string) (num_results : Z)
    : result (list NormalizedRecord) :=
  adapter (semantic_body up query num_results).

(** ** OpenAlex *)

(** A value used as a list index or compared as a number: [int], or [bool]
    (which Python counts as 0 and 1). *)
Definition as_index (v : pyval) : result Z :=
  match v with
  | PInt z => Ok z
  | PBool b => Ok (if b then 1 else 0)
  | _ => Raise TypeError
  end.

(** The positions listed for one word.  Anything but a list of integers makes
    [max(...) + 1], [[''] * n] or [words[pos] = word] raise. *)
Definition positions_of (v : pyval) : result (list Z) :=
  match v with
  | PList l => map_r as_index l
  | _ => Raise TypeError
  end.

(** [max(xs)] *)
Definition py_max (xs : list Z) : result Z :=
  match xs with
  | [] => Raise ValueError
  | x :: rest => Ok (foldl Z.max x rest)
  end.

(** [words[pos] = word]: a negative index counts from the end. *)
Definition list_set (words : list string) (pos : Z) (word : string) : result (list string) :=
  let n := Z.of_nat (length words) in
  if (0 <=? pos)%Z && (pos <? n)%Z then Ok (<[Z.to_nat pos := word]> words)
  else if (- n <=? pos)%Z && (pos <? 0)%Z then Ok (<[Z.to_nat (n + pos) := word]> words)
  else Raise IndexError.

(** The [words] list once both loops over [abstract_inv.items()] are done. *)
Definition place_words (index : list (string * list Z)) : result (list string) :=
  tops ← map_r (λ '(_, positions), py_max positions) index;
  top ← py_max tops;
  fold_r (λ words '(word, positions),
            fold_r (λ words pos, list_set words pos word) positions words)
         index (replicate (Z.to_nat (top + 1)) "").

Definition reconstruct_abstract (abstract_inv : pyval) : result pyval :=
  if truthy abstract_inv then
    match abstract_inv with
    | PDict d =>
        index ← map_r (λ '(word, v), positions ← positions_of v; Ok (word, positions)) d;
        words ← place_words index;
        Ok (PStr (str_take 500 (join " " words)))
    | _ => Raise AttributeError
    end
  else Ok NA.

(** [[authorship.get('author', {}).get('display_name', '')
      for authorship in work.get('authorships', [])]] *)
Definition openalex_authors (work : pyval) : result (list pyval) :=
  authorships ← py_get work "authorships" (PList []);
  authorships ← py_iter authorships;
  map_r (λ authorship,
           author ← py_get authorship "author" (PDict []);
           py_get author "display_name" (PStr "")) authorships.

Definition openalex_record (work : pyval) : result NormalizedRecord :=
  authors ← openalex_authors work;
  abstract_inv ← py_get work "abstract_inverted_index" (PDict []);
  abstract ← reconstruct_abstract abstract_inv;
  title ← py_get work "title" NA;
  authors ← py_join ", " (take 5 authors);
  publication_year ← py_get work "publication_year" NA;
  id ← py_get work "id" NA;
  url ← py_get work "doi" id;
  citations ← py_get work "cited_by_count" (PInt 0);
  host_venue ← py_get work "host_venue" (PDict []);
  venue ← py_get host_venue "display_name" NA;
  Ok {| source := "OpenAlex"; title := title; authors := authors;
        year := PStr (py_str publication_year); abstract := abstract; url := url;
        citations := citations; venue := venue |}.

Definition openalex_body (up : upstream) (query : string) (num_results : Z)
    : M (list NormalizedRecord) unit :=
  data ← lift (openalex_works up query num_results);
  works ← lift (py_get data "results" (PList []));
  works ← lift (py_iter works);
  for_each works (λ work, r ← lift (openalex_record work); append r).

Definition search_openalex_async (up : upstream) (query : string) (num_results : Z)
    : result (list NormalizedRecord) :=
  adapter (openalex_body up query num_results).

(** ** The cache key: [hashlib.md5(text.encode()).hexdigest()] *)

(** [str.encode()]: UTF-8, one or two bytes for a code point below 256. *)
Definition utf8_char (c : ascii) : list Z :=
  let n := Z.of_N (N_of_ascii c) in
  if (n <? 128)%Z then [n] else [Z.lor 192 (Z.shiftr n 6); Z.lor 128 (Z.land n 63)].

Fixpoint encode (s : string) : list Z :=
  match s with
  | EmptyString => []
  | String c rest => (utf8_char c ++ encode rest)%list
  end.

Module MD5.

Definition w32 (x : Z) : Z := x mod 2 ^ 32.
Definition not32 (x : Z) : Z := Z.lxor x (2 ^ 32 - 1).
Definition rotl (x c : Z) : Z := w32 (Z.lor (Z.shiftl x c) (Z.shiftr x (32 - c))).

Definition shifts : list Z :=
  [7; 12; 17; 22; 7; 12; 17; 22; 7; 12; 17; 22; 7; 12; 17; 22;
   5; 9; 14; 20; 5; 9; 14; 20; 5; 9; 14; 20; 5; 9; 14; 20;
   4; 11; 16; 23; 4; 11; 16; 23; 4; 11; 16; 23; 4; 11; 16; 23;
   6; 10; 15; 21; 6; 10; 15; 21; 6; 10; 15; 21; 6; 10; 15; 21].

(** [floor (2^32 * abs (sin (i + 1)))] for [i] from 0 to 63 *)
Definition K : list Z := [
  3614090360; 3905402710; 606105819; 3250441966;
  4118548399; 1200080426; 2821735955; 4249261313;
  1770035416; 2336552879; 4294925233; 2304563134;
  1804603682; 4254626195; 2792965006; 1236535329;
  4129170786; 3225465664; 643717713; 3921069994;
  3593408605; 38016083; 3634488961; 3889429448;
  568446438; 3275163606; 4107603335; 1163531501;
  2850285829; 4243563512; 1735328473; 2368359562;
  4294588738; 2272392833; 1839030562; 4259657740;
  2763975236; 1272893353; 4139469664; 3200236656;
  681279174; 3936430074; 3572445317; 76029189;
  3654602809; 3873151461; 530742520; 3299628645;
  4096336452; 1126891415; 2878612391; 4237533241;
  1700485571; 2399980690; 4293915773; 2240044497;
  1873313359; 4264355552; 2734768916; 1309151649;
  4149444226; 3174756917; 718787259; 3951481745
].

(** Little-endian bytes of [x], [n] of them. *)
Fixpoint le_bytes (n : nat) (x : Z) : list Z :=
  match n with
  | O => []
  | S n' => x mod 256 :: le_bytes n' (x / 256)
  end.

Fixpoint of_le_bytes (bs : list Z) : Z :=
  match bs with
  | [] => 0
  | b :: rest => b + 256 * of_le_bytes rest
  end.

Definition pad (msg : list Z) : list Z :=
  let len := Z.of_nat (length msg) in
  (msg ++ [128] ++ replicate (Z.to_nat ((55 - len) mod 64)) 0
       ++ le_bytes 8 ((8 * len) mod 2 ^ 64))%list.

Definition words_of (block : list Z) : list Z :=
  (λ j, of_le_bytes (take 4 (drop (4 * j) block))) <$> seq 0 16.

Definition step (m : list Z) (st : Z * Z * Z * Z) (i : nat) : Z * Z * Z * Z :=
  let '(a, b, c, d) := st in
  let z := Z.of_nat i in
  let '(f, g) :=
    if (z <? 16)%Z then (Z.lor (Z.land b c) (Z.land (not32 b) d), z)
    else if (z <? 32)%Z then (Z.lor (Z.land d b) (Z.land (not32 d) c), (5 * z + 1) mod 16)
    else if (z <? 48)%Z then (Z.lxor b (Z.lxor c d), (3 * z + 5) mod 16)
    else (Z.lxor c (Z.lor b (not32 d)), (7 * z) mod 16) in
  let f := w32 (f + a + nth i K 0 + nth (Z.to_nat g) m 0) in
  (d, w32 (b + rotl f (nth i shifts 0)), b, c).

Definition block (st : Z * Z * Z * Z) (bytes : list Z) : Z * Z * Z * Z :=
  let '(a0, b0, c0, d0) := st in
  let '(a, b, c, d) := foldl (step (words_of bytes)) st (seq 0 64) in
  (w32 (a0 + a), w32 (b0 + b), w32 (c0 + c), w32 (d0 + d)).

Definition digest (msg : list Z) : list Z :=
  let padded := pad msg in
  let blocks := (λ k, take 64 (drop (64 * k) padded)) <$> seq 0 (length padded / 64) in
  let '(a, b, c, d) := foldl block (1732584193, 4023233417, 2562383102, 271733878) blocks in
  (le_bytes 4 a ++ le_bytes 4 b ++ le_bytes 4 c ++ le_bytes 4 d)%list.

Definition hex_byte (b : Z) : string :=
  String (hex_digit (Z.to_N (b / 16))) (String (hex_digit (Z.to_N (b mod 16))) "").

Definition hexdigest (msg : list Z) : string :=
  foldr (λ b acc, hex_byte b +:+ acc) "" (digest msg).

End MD5.

(** [sorted(sources)] *)
Definition sorted (sources : list string) : list string := merge_sort String.le sources.

Definition ALL_SOURCES : list string := ["scholar"; "pubmed"; "arxiv"; "semantic"; "openalex"].

(** [hashlib.md5(f"{query}:{','.join(sorted(sources))}".encode()).hexdigest()] *)
Definition cache_key (query : string) (sources : list string) : string :=
  MD5.hexdigest (encode (query +:+ ":" +:+ join "," (sorted sources))).

(** ** The aggregator *)

Record SearchEnvelope : Type := {
  query : string;
  timestamp : string;
  sources : list (string * list NormalizedRecord);   (* a dict, in insertion order *)
  total_results : Z
}.

(** [d[k] = v] on a dict kept in insertion order *)
Fixpoint dict_set {A} (k : string) (v : A) (d : list (string * A)) : list (string * A) :=
  match d with
  | [] => [(k, v)]
  | (k', v') :: rest => if decide (k' = k) then (k, v) :: rest else (k', v') :: dict_set k v rest
  end.

(** [results['sources'][name] = rs] *)
Definition set_source (name : string) (rs : list NormalizedRecord) (results : SearchEnvelope)
    : SearchEnvelope :=
  {| query := query results; timestamp := timestamp results;
     sources := dict_set name rs (sources results);
     total_results := total_results results |}.

(** [results['total_results'] += n] *)
Definition add_total (n : Z) (results : SearchEnvelope) : SearchEnvelope :=
  {| query := query results; timestamp := timestamp results;
     sources := sources results;
     total_results := total_results results + n |}.

(** The five adapters as the aggregator calls them. *)
Record adapters : Type := {
  google_scholar : string → Z → result (list NormalizedRecord);
  pubmed : string → Z → result (list NormalizedRecord);
  arxiv : string → Z → result (list NormalizedRecord);
  semantic_scholar : string → Z → result (list NormalizedRecord);
  openalex : string → Z → result (list NormalizedRecord)
}.

Definition adapters_of (up : upstream) : adapters :=
  {| google_scholar := search_google_scholar up;
     pubmed := search_pubmed up;
     arxiv := search_arxiv up;
     semantic_scholar := search_semantic_scholar_async up;
     openalex := search_openalex_async up |}.

(** The default of every adapter's [num_results] parameter. *)
Definition DEFAULT_NUM_RESULTS : Z := 10.

(** An adapter's body begins to run / has returned. *)
Inductive event : Set :=
| Started (name : string)
| Returned (name : string).

(** A text held by the cache backend, by what [json.loads] makes of it: the
    envelope it is the JSON text of, or an error.  [json.dumps] of an envelope
    always succeeds and [json.loads] gives the envelope back, every field
    being a string, a number, [None], a list or a dict with string keys.
    A text that parses to something other than an envelope, which only
    another writer to the backend could have put there, has no counterpart
    here: nothing below speaks for a backend that holds one. *)
Inductive cached_text : Type :=
| JsonOf (e : SearchEnvelope)
| NotJson (text : string).

Definition json_dumps (e : SearchEnvelope) : result cached_text := Ok (JsonOf e).

Definition json_loads (text : cached_text) : result SearchEnvelope :=
  match text with
  | JsonOf e => Ok e
  | NotJson _ => Raise ValueError
  end.

(** [bool(text)]: a JSON text is never empty. *)
Definition nonempty (text : cached_text) : bool :=
  match text with
  | JsonOf _ => true
  | NotJson t => truthy (PStr t)
  end.

(** The cache backend maps a key to a text and the time it expires at;
    [redis_client] is [None] when no backend is configured. *)
Record state : Type := {
  redis_client : option (gmap string (cached_text * Z));
  log : list event
}.

(** What the environment answers during one call. *)
Record world : Type := {
  now_isoformat : string;     (* datetime.now().isoformat() *)
  time_get : Z;               (* the backend's clock at [get] *)
  time_setex : Z;             (* the backend's clock at [setex] *)
  get_raises : bool;
  setex_raises : bool
}.

Definition TTL : Z := 86400.

Definition redis_get (w : world) (db : gmap string (cached_text * Z)) (key : string)
    : result (option cached_text) :=
  if get_raises w then Raise UpstreamError
  else Ok (match db !! key with
           | Some (text, expiry) => if (time_get w <? expiry)%Z then Some text else None
           | None => None
           end).

Definition redis_setex (w : world) (db : gmap string (cached_text * Z)) (key : string)
    (ttl : Z) (text : cached_text) : result (gmap string (cached_text * Z)) :=
  if setex_raises w then Raise UpstreamError
  else Ok (<[key := (text, time_setex w + ttl)]> db).

Definition emit (e : event) : M state unit :=
  modify (λ s, {| redis_client := redis_client s; log := (log s ++ [e])%list |}).

(** Awaiting a coroutine object, or a call handed to [asyncio.to_thread], runs
    the adapter from its first line to its [return]; the caller's next
    statement runs after that. *)
Definition run_adapter (name : string) (body : result (list NormalizedRecord))
    : M state (list NormalizedRecord) :=
  emit (Started name);; rs ← lift body; emit (Returned name);; mret rs.

(** [try: results['sources'][name] = await task;
          results['total_results'] += len(results['sources'][name])
     except Exception: results['sources'][name] = []] *)
Definition collect (name : string) (task : M state (list NormalizedRecord))
    (results : SearchEnvelope) : M state SearchEnvelope :=
  try_except
    (rs ← task; mret (add_total (Z.of_nat (length rs)) (set_source name rs results)))
    (λ _, mret (set_source name [] results)).

(** [for source_name, task in tasks: ...] *)
Fixpoint await_each (tasks : list (string * M state (list NormalizedRecord)))
    (results : SearchEnvelope) : M state SearchEnvelope :=
  match tasks with
  | [] => mret results
  | (source_name, task) :: rest =>
      results ← collect source_name task results; await_each rest results
  end.

(** [if redis_client: try: cached = get(key); if cached: return loads(cached)
     except: pass] *)
Definition cache_lookup (w : world) (cache_key : string) : M state (option SearchEnvelope) :=
  s ← get_state;
  match redis_client s with
  | Some db =>
      try_except
        (cached ← lift (redis_get w db cache_key);
         match cached with
         | Some text =>
             if nonempty text then e ← lift (json_loads text); mret (Some e)
             else mret None
         | None => mret None
         end)
        (λ _, mret None)
  | None => mret None
  end.

(** [if redis_client: try: setex(key, 86400, dumps(results)) except: pass] *)
Definition cache_store (w : world) (cache_key : string) (results : SearchEnvelope)
    : M state unit :=
  s ← get_state;
  match redis_client s with
  | Some db =>
      try_except
        (text ← lift (json_dumps results);
         db' ← lift (redis_setex w db cache_key TTL text);
         modify (λ s, {| redis_client := Some db'; log := log s |}))
        (λ _, mret tt)
  | None => mret tt
  end.

Definition search_all_sources (A : adapters) (w : world) (query : string)
    (sources : option (list string)) : M state SearchEnvelope :=
  let sources := default ALL_SOURCES sources in
  let cache_key := cache_key query sources in
  cached ← cache_lookup w cache_key;
  match cached with
  | Some e => mret e
  | None =>
      let results := {| query := query; timestamp := now_isoformat w;
                        sources := []; total_results := 0 |} in
      let tasks :=
        ((if bool_decide ("semantic" ∈ sources)
          then [("semantic", run_adapter "semantic" (semantic_scholar A query DEFAULT_NUM_RESULTS))]
          else []) ++
         (if bool_decide ("openalex" ∈ sources)
          then [("openalex", run_adapter "openalex" (openalex A query DEFAULT_NUM_RESULTS))]
          else []))%list in
      results ← await_each tasks results;
      results ← (if bool_decide ("scholar" ∈ sources)
                 then collect "scholar"
                        (run_adapter "scholar" (google_scholar A query DEFAULT_NUM_RESULTS)) results
                 else mret results);
      results ← (if bool_decide ("pubmed" ∈ sources)
                 then collect "pubmed"
                        (run_adapter "pubmed" (pubmed A query DEFAULT_NUM_RESULTS)) results
                 else mret results);
      results ← (if bool_decide ("arxiv" ∈ sources)
                 then collect "arxiv"
                        (run_adapter "arxiv" (arxiv A query DEFAULT_NUM_RESULTS)) results
                 else mret results);
      cache_store w cache_key results;;
      mret results
  end.

(** ** The [/search] endpoint *)

Record SearchRequest : Type := {
  request_query : string;
  request_sources : option (list string);
  num_results : Z
}.

(** The reply: the success body, or the [HTTPException] raised with the
    status code and the exception it reports.  The message's leading emoji is
    outside the character range of the model and is left out. *)
Inductive response : Type :=
| Success (data : SearchEnvelope) (message : string)
| HTTPException (status_code : Z) (cause : exn).

Definition search_endpoint (A : adapters) (w : world) (request : SearchRequest)
    : M state response :=
  try_except
    (results ← search_all_sources A w (request_query request) (request_sources request);
     mret (Success results
             ("Encontrados " +:+ pretty (total_results results) +:+ " artigos")))
    (λ e, mret (HTTPException 500 e)).

(** ** The [/health] endpoint *)

Record HealthReport : Type := {
  health_status : string;
  health_timestamp : string;
  cache : string;
  sources_available : list string
}.

Definition health_check (w : world) : M state HealthReport :=
  s ← get_state;
  mret {| health_status := "healthy";
          health_timestamp := now_isoformat w;
          cache := match redis_client s with Some _ => "enabled" | None => "disabled" end;
          sources_available := ["scholar"; "pubmed"; "arxiv"; "semantic"; "openalex"] |}.

(** ** Vocabulary of the statements *)

(** What ends up under a source's name: the adapter's records, or nothing
    when awaiting it raises. *)
Definition slot (A : adapters) (name query : string) : list NormalizedRecord :=
  match (if decide (name = "semantic") then semantic_scholar A query DEFAULT_NUM_RESULTS
         else if decide (name = "openalex") then openalex A query DEFAULT_NUM_RESULTS
         else if decide (name = "scholar") then google_scholar A query DEFAULT_NUM_RESULTS
         else if decide (name = "pubmed") then pubmed A query DEFAULT_NUM_RESULTS
         else arxiv A query DEFAULT_NUM_RESULTS) with
  | Ok rs => rs
  | Raise _ => []
  end.

(** One round of Google Scholar's loop goes through for [pub] and appends [r]. *)
Definition scholar_ok (pub : pyval) (r : NormalizedRecord) : Prop :=
  ∃ bib t, py_get pub "bib" (PDict []) = Ok bib ∧
           scholar_record pub bib = Ok r ∧
           (t ← py_get bib "title" NA; py_slice_to 50 t) = Ok t.

(** The word of the last assignment to position [i], if there is one. *)
Fixpoint last_assigned (assigns : list (Z * string)) (i : Z) : option string :=
  match assigns with
  | [] => None
  | (p, w) :: rest =>
      match last_assigned rest i with
      | Some w' => Some w'
      | None => if decide (p = i) then Some w else None
      end
  end.

Fixpoint all_chars (p : ascii → bool) (s : string) : bool :=
  match s with
  | EmptyString => true
  | String c rest => p c && all_chars p rest
  end.

Definition is_lower_hex (c : ascii) : bool := str_mem c "0123456789abcdef".

(** The adapters [A], answering only when asked for exactly [limit] records. *)
Definition only_at (limit : Z) (A : adapters) : adapters :=
  {| google_scholar := λ q n, if (n =? limit)%Z then google_scholar A q n else Raise RuntimeError;
     pubmed := λ q n, if (n =? limit)%Z then pubmed A q n else Raise RuntimeError;
     arxiv := λ q n, if (n =? limit)%Z then arxiv A q n else Raise RuntimeError;
     semantic_scholar := λ q n,
       if (n =? limit)%Z then semantic_scholar A q n else Raise RuntimeError;
     openalex := λ q n, if (n =? limit)%Z then openalex A q n else Raise RuntimeError |}.

(** The records of the longest prefix of [xs] on which [f] does not raise. *)
Fixpoint prefix_ok {A B} (f : A → result B) (xs : list A) : list B :=
  match xs with
  | [] => []
  | x :: rest => match f x with
                 | Ok y => y :: prefix_ok f rest
                 | Raise _ => []
                 end
  end.

(** The records of the items of [xs] on which [f] does not raise. *)
Fixpoint successes {A B} (f : A → result B) (xs : list A) : list B :=
  match xs with
  | [] => []
  | x :: rest => match f x with
                 | Ok y => y :: successes f rest
                 | Raise _ => successes f rest
                 end
  end.

Definition raised {A} (r : result A) : Prop := ∃ e, r = Raise e.

(** The [try] block of an adapter ended in the [except] branch. *)
Definition failed (body : M (list NormalizedRecord) unit) : Prop := raised (body []).1.

(** The publications Google Scholar's loop can visit: those the iterator
    yields, none when [search_pubs] raises. *)
Definition pubs_of (response : result pub_stream) : list pyval :=
  match response with
  | Ok stream => yielded stream
  | Raise _ => []
  end.

(** What Google Scholar's loop leaves in [results] for a limit and a list of
    publications: the records of the first [k] publications, every one of
    which went through, and then one of
    - nothing more, because there is no publication [k], or the limit is
      reached, or publication [k] has no usable [bib] or cannot be
      normalized;
    - the record of publication [k] as well, because that record was
      appended and only then the progress line failed on its title. *)
Definition scholar_outcome (limit : nat) (pubs : list pyval) (rs : list NormalizedRecord)
    : Prop :=
  ∃ k front,
    (k ≤ limit)%nat ∧
    Forall2 scholar_ok (take k pubs) front ∧
    match pubs !! k with
    | None => rs = front
    | Some pub =>
        (k = limit ∧ rs = front) ∨
        ((k < limit)%nat ∧ raised (py_get pub "bib" (PDict [])) ∧ rs = front) ∨
        ((k < limit)%nat ∧
         ∃ bib, py_get pub "bib" (PDict []) = Ok bib ∧
                raised (scholar_record pub bib) ∧ rs = front) ∨
        ((k < limit)%nat ∧
         ∃ bib r, py_get pub "bib" (PDict []) = Ok bib ∧
                  scholar_record pub bib = Ok r ∧
                  raised (t ← py_get bib "title" NA; py_slice_to 50 t) ∧
                  rs = (front ++ [r])%list)
    end.

(** The items the loop of a JSON adapter visits: [data.get(key, [])], or
    nothing when the request or the lookup raises. *)
Definition items_of (response : result pyval) (key : string) : list pyval :=
  match (data ← response; v ← py_get data key (PList []); py_iter v) with
  | Ok items => items
  | Raise _ => []
  end.

Definition entries_of (response : result element) : list element :=
  match response with
  | Ok root => findall_child (atom "entry") root
  | Raise _ => []
  end.

(** The articles PubMed's second request returns, or nothing when a request
    raises or the id list is empty. *)
Definition articles_of (up : upstream) (query : string) (num_results : Z) : list element :=
  match (data ← pubmed_esearch up query num_results;
         esearchresult ← py_get data "esearchresult" (PDict []);
         ids ← py_get esearchresult "idlist" (PList []);
         if negb (truthy ids) then Ok []
         else
           id_items ← py_iter ids;
           id_param ← py_join "," id_items;
           root ← pubmed_efetch up id_param;
           Ok (findall_desc "PubmedArticle" root)) with
  | Ok articles => articles
  | Raise _ => []
  end.


(** [sum(len(rs) for rs in e['sources'].values())] *)
Definition count_records (e : SearchEnvelope) : Z :=
  foldr (λ '(_, rs) n, Z.of_nat (length rs) + n) 0 (sources e).

(** [total_results] is the number of records in [sources]. *)
Definition consistent (e : SearchEnvelope) : Prop := total_results e = count_records e.

(** Every envelope the backend holds is consistent. *)
Definition cache_consistent (s : state) : Prop :=
  ∀ db key e expiry,
    redis_client s = Some db → db !! key = Some (JsonOf e, expiry) → consistent e.

(** The source names in the order the aggregator handles them. *)
Definition HANDLED : list string := ["semantic"; "openalex"; "scholar"; "pubmed"; "arxiv"].

(** The call the aggregator makes for a source name. *)
Definition call (A : adapters) (name query : string) : result (list NormalizedRecord) :=
  if decide (name = "semantic") then semantic_scholar A query DEFAULT_NUM_RESULTS
  else if decide (name = "openalex") then openalex A query DEFAULT_NUM_RESULTS
  else if decide (name = "scholar") then google_scholar A query DEFAULT_NUM_RESULTS
  else if decide (name = "pubmed") then pubmed A query DEFAULT_NUM_RESULTS
  else arxiv A query DEFAULT_NUM_RESULTS.

(** What one [try]/[except] around an awaited adapter leaves in [results]
    and adds to the log. *)
Definition collected (name : string) (body : result (list NormalizedRecord))
    (results : SearchEnvelope) : SearchEnvelope :=
  match body with
  | Ok rs => add_total (Z.of_nat (length rs)) (set_source name rs results)
  | Raise _ => set_source name [] results
  end.

Definition trace_of (name : string) (body : result (list NormalizedRecord)) : list event :=
  match body with
  | Ok _ => [Started name; Returned name]
  | Raise _ => [Started name]
  end.

(** The envelope and the log of a call that is not answered from the cache. *)
Definition aggregate (A : adapters) (w : world) (query : string) (sources : list string)
    : SearchEnvelope :=
  foldl (λ results name,
           if bool_decide (name ∈ sources) then collected name (call A name query) results
           else results)
        {| query := query; timestamp := now_isoformat w; sources := []; total_results := 0 |}
        HANDLED.

Definition aggregate_trace (A : adapters) (query : string) (sources : list string)
    : list event :=
  flat_map (λ name, if bool_decide (name ∈ sources) then trace_of name (call A name query)
                    else []) HANDLED.

Definition logged (events : list event) (s : state) : state :=
  {| redis_client := redis_client s; log := (log s ++ events)%list |}.

(** The state after the store at the end of a call. *)
Definition stored (w : world) (key : string) (e : SearchEnvelope) (s : state) : state :=
  match redis_client s with
  | Some db =>
      if setex_raises w then s
      else {| redis_client := Some (<[key := (JsonOf e, time_setex w + TTL)]> db);
              log := log s |}
  | None => s
  end.

(** The envelope a lookup finds: a live entry that parses, read without error. *)
Definition lookup_hit (w : world) (key : string) (s : state) : option SearchEnvelope :=
  match redis_client s with
  | Some db =>
      if get_raises w then None
      else match db !! key with
           | Some (JsonOf e, expiry) => if (time_get w <? expiry)%Z then Some e else None
           | _ => None
           end
  | None => None
  end.

(** An inverted abstract index, typed, and the JSON object it arrives as. *)
Definition index_json (index : list (string * list Z)) : pyval :=
  PDict ((λ '(word, positions), (word, PList (PInt <$> positions))) <$> index).

(** [word] occupies position [p]. *)
Definition occupies (index : list (string * list Z)) (word : string) (p : Z) : Prop :=
  ∃ positions, (word, positions) ∈ index ∧ p ∈ positions.

(** Some word occurs, every word occurs somewhere, positions count from 0,
    and no position holds two words. *)
Definition well_formed_index (index : list (string * list Z)) : Prop :=
  index ≠ [] ∧
  (∀ word positions, (word, positions) ∈ index → positions ≠ []) ∧
  (∀ word p, occupies index word p → (0 ≤ p)%Z) ∧
  (∀ w1 w2 p, occupies index w1 p → occupies index w2 p → w1 = w2).

(** The assignments [words[pos] = word] in the order the two loops make them. *)
Definition assignments (index : list (string * list Z)) : list (Z * string) :=
  flat_map (λ '(word, positions), (λ p, (p, word)) <$> positions) index.

Definition deep_learning_index : list (string * list Z) :=
  [("deep", [0; 2]); ("learning", [1])].

(** ** Sample upstream answers *)

(** Every request fails: no network. *)
Definition unreachable : upstream :=
  {| scholarly_search_pubs := λ _, Raise UpstreamError;
     pubmed_esearch := λ _ _, Raise UpstreamError;
     pubmed_efetch := λ _, Raise UpstreamError;
     arxiv_query := λ _ _, Raise UpstreamError;
     semantic_search := λ _ _, Raise UpstreamError;
     openalex_works := λ _ _, Raise UpstreamError |}.

(** Semantic Scholar answers with two papers; the second has
    ["authors": null]. *)
Definition semantic_null_authors : upstream :=
  {| scholarly_search_pubs := λ _, Raise UpstreamError;
     pubmed_esearch := λ _ _, Raise UpstreamError;
     pubmed_efetch := λ _, Raise UpstreamError;
     arxiv_query := λ _ _, Raise UpstreamError;
     semantic_search := λ _ _,
       Ok (PDict [("data", PList [
             PDict [("title", PStr "Attention"); ("authors", PList [PDict [("name", PStr "Ann")]]);
                    ("year", PInt 2017); ("abstract", PStr "We propose."); ("url", PStr "u");
                    ("citationCount", PInt 3); ("venue", PStr "NeurIPS")];
             PDict [("title", PStr "Untitled"); ("authors", PNone)]])]);
     openalex_works := λ _ _, Raise UpstreamError |}.

(** An OpenAlex work with six authorships. *)
Definition six_author_work : pyval :=
  PDict [("title", PStr "T");
         ("authorships", PList ((λ name, PDict [("author", PDict [("display_name", PStr name)])])
                                  <$> ["A1"; "A2"; "A3"; "A4"; "A5"; "A6"]))].

(** arXiv answers with as many entries as [max_results] asks for. *)
Definition arxiv_entry (i : nat) : element :=
  Element (atom "entry") None
    [Element (atom "id") (Some "http://arxiv.org/abs/1901.00596") [];
     Element (atom "published") (Some "2019-01-03T03:20:55Z") [];
     Element (atom "title") (Some "A Comprehensive Survey on Graph Neural Networks") [];
     Element (atom "summary") (Some "  Deep learning has revolutionized many tasks.  ") [];
     Element (atom "author") None [Element (atom "name") (Some "Zonghan Wu") []]].

Definition arxiv_cooperates : upstream :=
  {| scholarly_search_pubs := λ _, Raise UpstreamError;
     pubmed_esearch := λ _ _, Raise UpstreamError;
     pubmed_efetch := λ _, Raise UpstreamError;
     arxiv_query := λ _ max_results,
       Ok (Element (atom "feed") None (arxiv_entry <$> seq 0 (Z.to_nat max_results)));
     semantic_search := λ _ _, Raise UpstreamError;
     openalex_works := λ _ _, Raise UpstreamError |}.

Definition graph_request : SearchRequest :=
  {| request_query := "graph neural networks";
     request_sources := Some ["arxiv"];
     num_results := 5 |}.

(** Google Scholar yields a publication whose title is null, then another. *)
Definition untitled_pub : pyval :=
  PDict [("bib", PDict [("title", PNone); ("author", PList [PStr "Ann"]);
                        ("pub_year", PInt 2020); ("abstract", PStr "text")]);
         ("pub_url", PStr "u"); ("num_citations", PInt 1)].

Definition titled_pub : pyval :=
  PDict [("bib", PDict [("title", PStr "Second")]); ("pub_url", PStr "v")].

Definition scholar_untitled_first : upstream :=
  {| scholarly_search_pubs := λ _,
       Ok {| yielded := [untitled_pub; titled_pub]; then_raises := false |};
     pubmed_esearch := λ _ _, Raise UpstreamError;
     pubmed_efetch := λ _, Raise UpstreamError;
     arxiv_query := λ _ _, Raise UpstreamError;
     semantic_search := λ _ _, Raise UpstreamError;
     openalex_works := λ _ _, Raise UpstreamError |}.

(** PubMed finds nothing: the id list of the first answer is empty. *)
Definition pubmed_no_match : upstream :=
  {| scholarly_search_pubs := λ _, Raise UpstreamError;
     pubmed_esearch := λ _ _,
       Ok (PDict [("esearchresult", PDict [("count", PStr "0"); ("idlist", PList [])])]);
     pubmed_efetch := λ _, Raise UpstreamError;
     arxiv_query := λ _ _, Raise UpstreamError;
     semantic_search := λ _ _, Raise UpstreamError;
     openalex_works := λ _ _, Raise UpstreamError |}.

(** Google Scholar yields a well-formed publication first. *)
Definition scholar_titled_first : upstream :=
  {| scholarly_search_pubs := λ _,
       Ok {| yielded := [titled_pub; untitled_pub]; then_raises := true |};
     pubmed_esearch := λ _ _, Raise UpstreamError;
     pubmed_efetch := λ _, Raise UpstreamError;
     arxiv_query := λ _ _, Raise UpstreamError;
     semantic_search := λ _ _, Raise UpstreamError;
     openalex_works := λ _ _, Raise UpstreamError |}.

(** arXiv sends two entries more than [max_results] asks for. *)
Definition arxiv_overshoots : upstream :=
  {| scholarly_search_pubs := λ _, Raise UpstreamError;
     pubmed_esearch := λ _ _, Raise UpstreamError;
     pubmed_efetch := λ _, Raise UpstreamError;
     arxiv_query := λ _ max_results,
       Ok (Element (atom "feed") None (arxiv_entry <$> seq 0 (Z.to_nat max_results + 2)));
     semantic_search := λ _ _, Raise UpstreamError;
     openalex_works := λ _ _, Raise UpstreamError |}.

(** ** Sample states and worlds *)

Definition no_backend : state := {| redis_client := None; log := [] |}.
Definition empty_backend : state := {| redis_client := Some ∅; log := [] |}.

(** An answer for the query "q" on arXiv, stored at noon. *)
Definition stored_envelope : SearchEnvelope :=
  {| query := "q"; timestamp := "2024-05-01T12:00:00.000000";
     sources := [("arxiv", [])]; total_results := 0 |}.

Definition warm_backend : state :=
  {| redis_client :=
       Some {["1393169f8293aec5ddcbe2f88af54cdb" := (JsonOf stored_envelope, 129615)]};
     log := [] |}.

Definition at_noon : world :=
  {| now_isoformat := "2024-05-01T12:00:00.000000";
     time_get := 43200; time_setex := 43215;
     get_raises := false; setex_raises := false |}.

Definition an_hour_later : world :=
  {| now_isoformat := "2024-05-01T13:00:00.000000";
     time_get := 46800; time_setex := 46815;
     get_raises := false; setex_raises := false |}.

(** The backend is configured but every command to it fails. *)
Definition backend_down : world :=
  {| now_isoformat := "2024-05-01T13:00:00.000000";
     time_get := 46800; time_setex := 46815;
     get_raises := true; setex_raises := true |}.

(** Two days on: the entry stored at noon has expired. *)
Definition two_days_later : world :=
  {| now_isoformat := "2024-05-03T12:00:00.000000";
     time_get := 216000; time_setex := 216015;
     get_raises := false; setex_raises := false |}.

(** * Properties *)

(** ** Builtins on sample values *)

Example py_str_nested :
  py_str (PList [PStr "ab"; PInt (-5); PNone; PDict [("k", PBool true)]])
  = "['ab', -5, None, {'k': True}]".
Proof. by vm_compute. Qed.

Example repr_str_quotes :
  repr_str "it's"
  = String double_quote "it's" +:+ String double_quote EmptyString.
Proof. by vm_compute. Qed.

Example repr_str_newline :
  repr_str (String (ascii_of_N 10) (String (ascii_of_N 7) EmptyString)) = "'\n\x07'".
Proof. by vm_compute. Qed.

Example strip_spaces : strip "  ab c  " = "ab c".
Proof. reflexivity. Qed.

Example negative_index : list_set ["a"; "b"; "c"] (-1) "z" = Ok ["a"; "b"; "z"].
Proof. reflexivity. Qed.

Example index_out_of_range : list_set ["a"; "b"; "c"] (-4) "z" = Raise IndexError.
Proof. reflexivity. Qed.

(** ** Computations *)

Definition preserves {S A} (P : S → Prop) (m : M S A) : Prop :=
  ∀ s, P s → P (m s).2.

Lemma preserves_ret {S A} (P : S → Prop) (a : A) : preserves P (mret a).
Proof. intros s Hs. exact Hs. Qed.

Lemma preserves_raise {S A} (P : S → Prop) e : preserves P (raise e : M S A).
Proof. intros s Hs. exact Hs. Qed.

Lemma preserves_lift_bind {S A B} (P : S → Prop) (r : result A) (f : A → M S B) :
  (∀ a, r = Ok a → preserves P (f a)) → preserves P (lift r ≫= f).
Proof.
  intros Hf s Hs. unfold mbind, M_bind, lift. destruct r as [a|e]; simpl.
  - by apply Hf.
  - exact Hs.
Qed.

Lemma preserves_bind {S A B} (P : S → Prop) (m : M S A) (f : A → M S B) :
  preserves P m → (∀ a, preserves P (f a)) → preserves P (m ≫= f).
Proof.
  intros Hm Hf s Hs. unfold mbind, M_bind. specialize (Hm s Hs).
  destruct (m s) as [[a|e] s']; simpl in *.
  - by apply Hf.
  - exact Hm.
Qed.

Lemma preserves_try {S A} (P : S → Prop) (body : M S A) handler :
  preserves P body → (∀ e, preserves P (handler e)) → preserves P (try_except body handler).
Proof.
  intros Hb Hh s Hs. unfold try_except. specialize (Hb s Hs).
  destruct (body s) as [[a|e] s']; simpl in *; [exact Hb|]. by apply Hh.
Qed.

Lemma preserves_for_each {S A} (P : S → Prop) (xs : list A) (body : A → M S unit) :
  (∀ x, x ∈ xs → preserves P (body x)) → preserves P (for_each xs body).
Proof.
  induction xs as [|x xs IH]; intros Hb; simpl.
  - apply preserves_ret.
  - apply preserves_bind.
    + apply Hb. left.
    + intros _. apply IH. intros y Hy. apply Hb. by right.
Qed.

Lemma preserves_append (P : NormalizedRecord → Prop) r :
  P r → preserves (Forall P) (append r).
Proof.
  intros Hr rs Hrs. simpl. apply Forall_app. split; [exact Hrs|]. by constructor.
Qed.

(** An adapter returns the list its [try] block left behind, whether the
    block ended normally or in the [except] branch. *)
Lemma adapter_returns body : adapter body = Ok (body []).2.
Proof.
  unfold adapter, try_except. by destruct (body []) as [[[]|e] rs].
Qed.

Lemma adapter_Forall (P : NormalizedRecord → Prop) body :
  preserves (Forall P) body → ∃ rs, adapter body = Ok rs ∧ Forall P rs.
Proof.
  intros Hb. exists (body []).2. split; [apply adapter_returns|]. apply Hb. constructor.
Qed.

(** The loop [for x in xs: results.append(f(x))] stops at the first [x] on
    which [f] raises and keeps what it appended before. *)
Lemma for_each_append_prefix {A} (f : A → result NormalizedRecord) xs rs :
  (for_each xs (λ x, r ← lift (f x); append r) rs).2 = (rs ++ prefix_ok f xs)%list.
Proof.
  revert rs. induction xs as [|x xs IH]; intros rs; simpl.
  - by rewrite app_nil_r.
  - unfold mbind at 1, M_bind at 1. unfold mbind at 1, M_bind at 1, lift at 1.
    destruct (f x) as [y|e]; simpl.
    + rewrite IH. by rewrite <- app_assoc.
    + by rewrite app_nil_r.
Qed.

(** With a [try] around each item the loop skips the items that raise. *)
Lemma for_each_try_successes {A} (f : A → result NormalizedRecord) xs rs :
  for_each xs (λ x, try_except (r ← lift (f x); append r) (λ _, mret tt)) rs
  = (Ok tt, (rs ++ successes f xs)%list).
Proof.
  revert rs. induction xs as [|x xs IH]; intros rs; simpl.
  - by rewrite app_nil_r.
  - unfold mbind at 1, M_bind at 1, try_except at 1.
    unfold mbind at 1, M_bind at 1, lift at 1.
    destruct (f x) as [y|e]; simpl.
    + rewrite IH. by rewrite <- app_assoc.
    + apply IH.
Qed.

(** ** What each adapter returns *)

Lemma search_semantic_scholar_async_eq up q n :
  search_semantic_scholar_async up q n
  = Ok (prefix_ok semantic_record (items_of (semantic_search up q n) "data")).
Proof.
  unfold search_semantic_scholar_async. rewrite adapter_returns. f_equal.
  unfold semantic_body, items_of, mbind, M_bind, result_bind, lift.
  destruct (semantic_search up q n) as [data|e]; simpl; [|done].
  destruct (py_get data "data" (PList [])) as [v|e]; simpl; [|done].
  destruct (py_iter v) as [items|e]; simpl; [|done].
  apply (for_each_append_prefix semantic_record items []).
Qed.

Lemma search_openalex_async_eq up q n :
  search_openalex_async up q n
  = Ok (prefix_ok openalex_record (items_of (openalex_works up q n) "results")).
Proof.
  unfold search_openalex_async. rewrite adapter_returns. f_equal.
  unfold openalex_body, items_of, mbind, M_bind, result_bind, lift.
  destruct (openalex_works up q n) as [data|e]; simpl; [|done].
  destruct (py_get data "results" (PList [])) as [v|e]; simpl; [|done].
  destruct (py_iter v) as [items|e]; simpl; [|done].
  apply (for_each_append_prefix openalex_record items []).
Qed.

Lemma search_arxiv_eq up q n :
  search_arxiv up q n
  = Ok (prefix_ok arxiv_record (entries_of (arxiv_query up ("all:" +:+ q) n))).
Proof.
  unfold search_arxiv. rewrite adapter_returns. f_equal.
  unfold arxiv_body, entries_of, mbind, M_bind, lift.
  destruct (arxiv_query up ("all:" +:+ q) n) as [root|e]; simpl; [|done].
  apply (for_each_append_prefix arxiv_record _ []).
Qed.

Lemma search_pubmed_eq up q n :
  search_pubmed up q n = Ok (successes pubmed_record (articles_of up q n)).
Proof.
  unfold search_pubmed. rewrite adapter_returns. f_equal.
  unfold pubmed_body, articles_of, mbind, M_bind, result_bind, lift.
  destruct (pubmed_esearch up q n) as [data|e]; simpl; [|done].
  destruct (py_get data "esearchresult" (PDict [])) as [esr|e]; simpl; [|done].
  destruct (py_get esr "idlist" (PList [])) as [ids|e]; simpl; [|done].
  destruct (truthy ids); simpl; [|done].
  destruct (py_iter ids) as [items|e]; simpl; [|done].
  destruct (py_join "," items) as [param|e]; simpl; [|done].
  destruct (pubmed_efetch up param) as [root|e]; simpl; [|done].
  exact (f_equal snd (for_each_try_successes pubmed_record _ [])).
Qed.

Lemma prefix_ok_Forall {A B} (f : A → result B) (P : B → Prop) xs :
  (∀ x y, x ∈ xs → f x = Ok y → P y) → Forall P (prefix_ok f xs).
Proof.
  induction xs as [|x xs IH]; intros H; simpl; [constructor|].
  destruct (f x) as [y|e] eqn:E; [|constructor].
  constructor.
  - apply (H x); [left|done].
  - apply IH. intros x' y' Hx'. apply H. by right.
Qed.

Lemma successes_Forall {A B} (f : A → result B) (P : B → Prop) xs :
  (∀ x y, x ∈ xs → f x = Ok y → P y) → Forall P (successes f xs).
Proof.
  induction xs as [|x xs IH]; intros H; simpl; [constructor|].
  assert (Forall P (successes f xs)) as Hrest.
  { apply IH. intros x' y' Hx'. apply H. by right. }
  destruct (f x) as [y|e] eqn:E; [|done].
  constructor; [|done]. apply (H x); [left|done].
Qed.

Lemma prefix_ok_length {A B} (f : A → result B) xs :
  (length (prefix_ok f xs) ≤ length xs)%nat.
Proof.
  induction xs as [|x xs IH]; simpl; [lia|]. destruct (f x); simpl; lia.
Qed.

(** Every record Google Scholar returns was built from a publication the
    iterator yielded. *)
Lemma scholar_loop_preserves (P : NormalizedRecord → Prop) n i pubs fails :
  (∀ pub bib r, pub ∈ pubs → py_get pub "bib" (PDict []) = Ok bib →
                scholar_record pub bib = Ok r → P r) →
  preserves (Forall P) (scholar_loop n i pubs fails).
Proof.
  revert i. induction pubs as [|pub pubs IH]; intros i H; simpl.
  - destruct fails; [apply preserves_raise|apply preserves_ret].
  - destruct (i >=? n)%Z; [apply preserves_ret|].
    apply preserves_lift_bind. intros bib Hbib.
    apply preserves_lift_bind. intros r Hr.
    apply preserves_bind.
    { apply preserves_append. apply (H pub bib); [left|done..]. }
    intros _. apply preserves_lift_bind. intros _ _.
    apply IH. intros pub' bib' r' Hin. apply H. by right.
Qed.

Lemma search_google_scholar_Forall (P : NormalizedRecord → Prop) up q n :
  (∀ stream pub bib r,
     scholarly_search_pubs up q = Ok stream → pub ∈ yielded stream →
     py_get pub "bib" (PDict []) = Ok bib → scholar_record pub bib = Ok r → P r) →
  ∃ rs, search_google_scholar up q n = Ok rs ∧ Forall P rs.
Proof.
  intros H. apply adapter_Forall. unfold scholar_body.
  apply preserves_lift_bind. intros stream Hstream.
  apply scholar_loop_preserves. intros pub bib r. by apply H.
Qed.

(** ** Abstracts are cut at 500 *)

Ltac inv_result H :=
  unfold mbind, result_bind in H;
  repeat match type of H with
         | match ?e with Ok _ => _ | Raise _ => _ end = Ok _ =>
             let E := fresh "E" in destruct e eqn:E; [cbv beta zeta in H|discriminate H]
         end.












(** ** Adapters do not raise *)

Lemma search_google_scholar_returns up q n :
  search_google_scholar up q n = Ok (scholar_body up q n []).2.
Proof. apply adapter_returns. Qed.

Lemma raised_Raise {A} (e : exn) : raised (Raise e : result A).
Proof. by exists e. Qed.

Lemma items_of_raised (response : result pyval) key : raised response → items_of response key = [].
Proof. by intros [e ->]. Qed.

Lemma articles_of_esearch_raised up q n :
  raised (pubmed_esearch up q n) → articles_of up q n = [].
Proof. unfold articles_of. by intros [e ->]. Qed.

Lemma articles_of_efetch_raised up q n :
  (∀ ids, raised (pubmed_efetch up ids)) → articles_of up q n = [].
Proof.
  intros H. unfold articles_of, mbind, result_bind.
  destruct (pubmed_esearch up q n) as [data|e]; [|done].
  destruct (py_get data "esearchresult" (PDict [])) as [esr|e]; [|done].
  destruct (py_get esr "idlist" (PList [])) as [ids|e]; [|done].
  destruct (negb (truthy ids)); [done|].
  destruct (py_iter ids) as [items|e]; [|done].
  destruct (py_join "," items) as [param|e]; [|done].
  by destruct (H param) as [e ->].
Qed.

Lemma bind_lift {S A B} (r : result A) (f : A → M S B) s :
  (lift r ≫= f) s = match r with Ok a => f a s | Raise e => (Raise e, s) end.
Proof. by destruct r. Qed.

Lemma bind_append {B} r (f : unit → M (list NormalizedRecord) B) rs :
  (append r ≫= f) rs = f tt (rs ++ [r])%list.
Proof. done. Qed.

Lemma scholar_outcome_cons limit pub pubs r rs :
  scholar_ok pub r → scholar_outcome limit pubs rs →
  scholar_outcome (S limit) (pub :: pubs) (r :: rs).
Proof.
  intros Hok (k & front & Hk & Hfront & Hstop).
  exists (S k), (r :: front). split; [lia|]. split; [by constructor|].
  simpl. destruct (pubs !! k) as [pub'|]; [|by rewrite Hstop].
  destruct Hstop as [[-> ->]|[(? & ? & ->)|[(? & bib & ? & ? & ->)|(? & bib & r' & ? & ? & ? & ->)]]].
  - by left.
  - right. left. split; [lia|done].
  - right. right. left. split; [lia|]. by exists bib.
  - right. right. right. split; [lia|]. by exists bib, r'.
Qed.

(** The loop over the publications, from index [i] with [n - i] rounds to
    go, adds to [results] what [scholar_outcome] describes. *)
Lemma scholar_loop_outcome n i pubs fails rs0 :
  ∃ rs, (scholar_loop n i pubs fails rs0).2 = (rs0 ++ rs)%list ∧
        scholar_outcome (Z.to_nat (n - i)) pubs rs.
Proof.
  revert i rs0. induction pubs as [|pub pubs IH]; intros i rs0.
  { exists []. split; [rewrite app_nil_r; by destruct fails|].
    exists 0%nat, []. split; [lia|]. split; [constructor|done]. }
  simpl. destruct (Z.geb_spec i n) as [Hge|Hlt].
  { exists []. split; [by rewrite app_nil_r|].
    exists 0%nat, []. split; [lia|]. split; [constructor|].
    simpl. left. split; [lia|done]. }
  assert (Z.to_nat (n - i) = S (Z.to_nat (n - (i + 1)))) as Hlimit by lia.
  rewrite bind_lift.
  destruct (py_get pub "bib" (PDict [])) as [bib|e] eqn:Hbib.
  2: { exists []. split; [by rewrite app_nil_r|].
       exists 0%nat, []. split; [lia|]. split; [constructor|].
       simpl. right. left. rewrite Hbib. split; [lia|]. split; [by exists e|done]. }
  rewrite bind_lift.
  destruct (scholar_record pub bib) as [r|e] eqn:Hr.
  2: { exists []. split; [by rewrite app_nil_r|].
       exists 0%nat, []. split; [lia|]. split; [constructor|].
       simpl. right. right. left. split; [lia|]. exists bib.
       split; [done|]. split; [by exists e|done]. }
  rewrite bind_append, bind_lift.
  destruct (py_get bib "title" NA ≫= λ t, py_slice_to 50 t) as [t|e] eqn:Ht.
  2: { exists [r]. split; [done|].
       exists 0%nat, []. split; [lia|]. split; [constructor|].
       simpl. right. right. right. split; [lia|]. exists bib, r.
       split; [done|]. split; [done|]. split; [by exists e|done]. }
  destruct (IH (i + 1)%Z (rs0 ++ [r])%list) as (rs & Hrs & Hout).
  exists (r :: rs). split; [by rewrite Hrs, <- app_assoc|].
  rewrite Hlimit. apply scholar_outcome_cons; [|done]. by exists bib, t.
Qed.

Lemma search_google_scholar_outcome up q n :
  ∃ rs, search_google_scholar up q n = Ok rs ∧
        scholar_outcome (Z.to_nat n) (pubs_of (scholarly_search_pubs up q)) rs.
Proof.
  unfold search_google_scholar. rewrite adapter_returns.
  unfold scholar_body. rewrite bind_lift.
  destruct (scholarly_search_pubs up q) as [stream|e]; simpl.
  - destruct (scholar_loop_outcome n 0 (yielded stream) (then_raises stream) [])
      as (rs & Hrs & Hout).
    exists rs. rewrite Hrs. split; [done|]. by rewrite Z.sub_0_r in Hout.
  - exists []. split; [done|]. exists 0%nat, []. split; [lia|]. split; [constructor|done].
Qed.

(** C2, as the code has it.  No adapter raises: each returns the list its
    [try] block built.  When the request itself fails (transport error,
    timeout, a body that does not parse) that list is empty.  After a
    malformed item, arXiv, Semantic Scholar and OpenAlex return the records
    of the items before it; Google Scholar returns the records of the
    publications before it and, when the publication fails only at the
    progress line printed after its record was appended, that record too;
    PubMed skips a malformed article and keeps the others. *)
Theorem adapters_never_raise (up : upstream) (q : string) (n : Z) :
  ((∃ rs, search_google_scholar up q n = Ok rs ∧
          scholar_outcome (Z.to_nat n) (pubs_of (scholarly_search_pubs up q)) rs)
   ∧ (raised (scholarly_search_pubs up q) → search_google_scholar up q n = Ok [])) ∧
  (search_pubmed up q n = Ok (successes pubmed_record (articles_of up q n))
   ∧ (raised (pubmed_esearch up q n) → search_pubmed up q n = Ok [])
   ∧ ((∀ ids, raised (pubmed_efetch up ids)) → search_pubmed up q n = Ok [])) ∧
  (search_arxiv up q n
     = Ok (prefix_ok arxiv_record (entries_of (arxiv_query up ("all:" +:+ q) n)))
   ∧ (raised (arxiv_query up ("all:" +:+ q) n) → search_arxiv up q n = Ok [])) ∧
  (search_semantic_scholar_async up q n
     = Ok (prefix_ok semantic_record (items_of (semantic_search up q n) "data"))
   ∧ (raised (semantic_search up q n) → search_semantic_scholar_async up q n = Ok [])) ∧
  (search_openalex_async up q n
     = Ok (prefix_ok openalex_record (items_of (openalex_works up q n) "results"))
   ∧ (raised (openalex_works up q n) → search_openalex_async up q n = Ok [])).
Proof.
  split; [split|split; [split; [|split]|split; [split|split; split]]].
  - apply search_google_scholar_outcome.
  - intros [e He]. rewrite search_google_scholar_returns.
    unfold scholar_body, mbind, M_bind, lift. by rewrite He.
  - apply search_pubmed_eq.
  - intros H. by rewrite search_pubmed_eq, articles_of_esearch_raised.
  - intros H. by rewrite search_pubmed_eq, articles_of_efetch_raised.
  - apply search_arxiv_eq.
  - intros [e He]. rewrite search_arxiv_eq. by rewrite He.
  - apply search_semantic_scholar_async_eq.
  - intros H. by rewrite search_semantic_scholar_async_eq, items_of_raised.
  - apply search_openalex_async_eq.
  - intros H. by rewrite search_openalex_async_eq, items_of_raised.
Qed.

Lemma adapters_never_raise_witness :
  search_google_scholar unreachable "q" 10 = Ok [] ∧
  search_pubmed unreachable "q" 10 = Ok [] ∧
  search_arxiv unreachable "q" 10 = Ok [] ∧
  search_semantic_scholar_async unreachable "q" 10 = Ok [] ∧
  search_openalex_async unreachable "q" 10 = Ok [].
Proof.
  destruct (adapters_never_raise unreachable "q" 10)
    as ((_ & H1) & (_ & H2 & _) & (_ & H3) & (_ & H4) & (_ & H5)).
  exact (conj (H1 (raised_Raise _)) (conj (H2 (raised_Raise _)) (conj (H3 (raised_Raise _))
          (conj (H4 (raised_Raise _)) (H5 (raised_Raise _)))))).
Defined.

(** C2, as stated, fails: the second paper's null author list raises inside
    the [try] block after the first paper's record was appended, and the
    adapter returns that record. *)
Lemma failure_keeps_earlier_records :
  failed (semantic_body semantic_null_authors "q" 10) ∧
  ∃ r, search_semantic_scholar_async semantic_null_authors "q" 10 = Ok [r].
Proof.
  split.
  - exists TypeError. reflexivity.
  - eexists. reflexivity.
Qed.

(** ** Author lists *)

Lemma openalex_record_authors work r :
  openalex_record work = Ok r →
  ∃ names, openalex_authors work = Ok names ∧ py_join ", " (take 5 names) = Ok (authors r).
Proof.
  intros H. unfold openalex_record in H. inv_result H.
  injection H as <-. simpl. eauto.
Qed.

Lemma semantic_record_authors paper r :
  semantic_record paper = Ok r →
  ∃ names, semantic_authors paper = Ok names ∧ py_join ", " names = Ok (authors r).
Proof.
  intros H. unfold semantic_record in H. inv_result H.
  injection H as <-. simpl. eauto.
Qed.

Lemma arxiv_record_authors entry r :
  arxiv_record entry = Ok r →
  ∃ names, arxiv_authors entry = Ok names ∧ py_join ", " names = Ok (authors r).
Proof.
  intros H. unfold arxiv_record in H. inv_result H.
  injection H as <-. simpl. eauto.
Qed.

Lemma pubmed_record_authors article r :
  pubmed_record article = Ok r → authors r = join ", " (pubmed_authors article).
Proof.
  intros H. unfold pubmed_record in H. cbv zeta in H. inv_result H.
  by injection H as <-.
Qed.

Lemma scholar_record_authors pub bib r :
  scholar_record pub bib = Ok r → scholar_authors bib = Ok (authors r).
Proof.
  intros H. unfold scholar_record in H. inv_result H.
  by injection H as <-.
Qed.

(** C10. Every record the OpenAlex adapter returns comes from a work of the
    response, and its [authors] field is the comma-join of the first five of
    that work's authorship display names: with six authorships the sixth is
    dropped.  The other four adapters join every author they parsed. *)
Theorem openalex_joins_first_five_authors (up : upstream) (q : string) (n : Z) :
  (∃ rs, search_openalex_async up q n = Ok rs ∧
     Forall (λ r, ∃ work names,
                work ∈ items_of (openalex_works up q n) "results" ∧
                openalex_authors work = Ok names ∧
                py_join ", " (take 5 names) = Ok (authors r)) rs) ∧
  (∃ r, openalex_record six_author_work = Ok r ∧ authors r = "A1, A2, A3, A4, A5") ∧
  (∃ rs, search_semantic_scholar_async up q n = Ok rs ∧
     Forall (λ r, ∃ paper names,
                paper ∈ items_of (semantic_search up q n) "data" ∧
                semantic_authors paper = Ok names ∧
                py_join ", " names = Ok (authors r)) rs) ∧
  (∃ rs, search_arxiv up q n = Ok rs ∧
     Forall (λ r, ∃ entry names,
                entry ∈ entries_of (arxiv_query up ("all:" +:+ q) n) ∧
                arxiv_authors entry = Ok names ∧
                py_join ", " names = Ok (authors r)) rs) ∧
  (∃ rs, search_pubmed up q n = Ok rs ∧
     Forall (λ r, ∃ article,
                article ∈ articles_of up q n ∧
                authors r = join ", " (pubmed_authors article)) rs) ∧
  (∃ rs, search_google_scholar up q n = Ok rs ∧
     Forall (λ r, ∃ stream pub bib,
                scholarly_search_pubs up q = Ok stream ∧ pub ∈ yielded stream ∧
                py_get pub "bib" (PDict []) = Ok bib ∧
                scholar_authors bib = Ok (authors r)) rs).
Proof.
  split; [|split; [|split; [|split; [|split]]]].
  - eexists. split; [apply search_openalex_async_eq|].
    apply prefix_ok_Forall. intros work r Hin Hr.
    destruct (openalex_record_authors _ _ Hr) as (names & ? & ?). eauto.
  - eexists. split; [vm_compute; reflexivity|reflexivity].
  - eexists. split; [apply search_semantic_scholar_async_eq|].
    apply prefix_ok_Forall. intros paper r Hin Hr.
    destruct (semantic_record_authors _ _ Hr) as (names & ? & ?). eauto.
  - eexists. split; [apply search_arxiv_eq|].
    apply prefix_ok_Forall. intros entry r Hin Hr.
    destruct (arxiv_record_authors _ _ Hr) as (names & ? & ?). eauto.
  - eexists. split; [apply search_pubmed_eq|].
    apply successes_Forall. intros article r Hin Hr.
    exists article. split; [done|]. by apply pubmed_record_authors.
  - apply search_google_scholar_Forall. intros stream pub bib r Hs Hin Hbib Hr.
    exists stream, pub, bib. repeat split; try done. by eapply scholar_record_authors.
Qed.

(** ** Rebuilding an abstract from its inverted index *)

Lemma fold_r_app {A B} (f : B → A → result B) xs ys acc :
  fold_r f (xs ++ ys) acc = (acc' ← fold_r f xs acc; fold_r f ys acc').
Proof.
  revert acc. induction xs as [|x xs IH]; intros acc; simpl; [done|].
  unfold mbind, result_bind. destruct (f acc x) as [acc'|e]; [|done]. apply IH.
Qed.

Lemma fold_r_fmap {A B C} (g : A → C) (f : B → C → result B) xs acc :
  fold_r f (g <$> xs) acc = fold_r (λ acc x, f acc (g x)) xs acc.
Proof.
  revert acc. induction xs as [|x xs IH]; intros acc; simpl; [done|].
  unfold mbind, result_bind. destruct (f acc (g x)); [apply IH|done].
Qed.

(** The two nested loops make the assignments one after the other. *)
Lemma nested_loops_assignments index words :
  fold_r (λ words '(word, positions),
            fold_r (λ words pos, list_set words pos word) positions words) index words
  = fold_r (λ words '(p, w), list_set words p w) (assignments index) words.
Proof.
  revert words. induction index as [|[word positions] index IH]; intros words; [done|].
  unfold assignments. simpl. fold (assignments index).
  rewrite fold_r_app, fold_r_fmap. unfold mbind, result_bind.
  destruct (fold_r _ positions words); [apply IH|done].
Qed.

Lemma elem_of_assignments index word p :
  (p, word) ∈ assignments index ↔ occupies index word p.
Proof.
  unfold assignments, occupies. rewrite list_elem_of_In, in_flat_map. split.
  - intros ([w ps] & Hin & Hp). apply list_elem_of_In, list_elem_of_fmap in Hp.
    destruct Hp as (p' & [= -> ->] & Hp'). exists ps. by rewrite list_elem_of_In.
  - intros (ps & Hin & Hp). exists (word, ps). split; [by apply list_elem_of_In|].
    apply list_elem_of_In, list_elem_of_fmap. eauto.
Qed.

Lemma list_set_in_range words p w :
  (0 ≤ p < Z.of_nat (length words))%Z → list_set words p w = Ok (<[Z.to_nat p := w]> words).
Proof.
  intros Hp. unfold list_set.
  destruct (Z.leb_spec 0 p), (Z.ltb_spec p (Z.of_nat (length words))); simpl; done || lia.
Qed.

(** A run of in-range assignments succeeds, keeps the length, leaves the
    unassigned slots alone and, when no position is assigned two words, ends
    with every assigned word in its slot. *)
Lemma assignments_run (assigns : list (Z * string)) words :
  (∀ p w, (p, w) ∈ assigns → (0 ≤ p < Z.of_nat (length words))%Z) →
  ∃ words',
    fold_r (λ words '(p, w), list_set words p w) assigns words = Ok words' ∧
    length words' = length words ∧
    (∀ i, (∀ w, (Z.of_nat i, w) ∉ assigns) → words' !! i = words !! i) ∧
    ((∀ p w1 w2, (p, w1) ∈ assigns → (p, w2) ∈ assigns → w1 = w2) →
     ∀ p w, (p, w) ∈ assigns → words' !! Z.to_nat p = Some w).
Proof.
  revert words. induction assigns as [|[p0 w0] assigns IH]; intros words Hrange.
  { exists words. repeat split; try done. intros _ p w Hin. by apply elem_of_nil in Hin. }
  assert (0 ≤ p0 < Z.of_nat (length words))%Z as Hp0 by (apply (Hrange p0 w0); left).
  destruct (IH (<[Z.to_nat p0 := w0]> words)) as (words' & Hrun & Hlen & Hkeep & Hset).
  { intros p w Hin. rewrite length_insert. apply (Hrange p w). by right. }
  exists words'. simpl. unfold mbind, result_bind. rewrite (list_set_in_range _ _ _ Hp0).
  split; [exact Hrun|]. split; [by rewrite Hlen, length_insert|]. split.
  - intros i Hi. rewrite Hkeep.
    + apply list_lookup_insert_ne. intros Heq. apply (Hi w0).
      replace (Z.of_nat i) with p0 by lia. left.
    + intros w Hin. apply (Hi w). by right.
  - intros Hfun p w Hin.
    destruct (decide ((p, w) ∈ assigns)) as [Hrest|Hrest].
    + apply Hset; [|done]. intros p' w1 w2 H1 H2. apply (Hfun p'); by right.
    + apply elem_of_cons in Hin as [[= -> ->]|Hin]; [|done].
      rewrite Hkeep.
      * apply list_lookup_insert_eq. lia.
      * intros w Hin. rewrite Z2Nat.id in Hin by lia.
        assert (w = w0) as -> by (apply (Hfun p0); [by right|left]). done.
Qed.

Lemma foldl_max_spec (x : Z) (xs : list Z) :
  (foldl Z.max x xs = x ∨ foldl Z.max x xs ∈ xs) ∧
  (x ≤ foldl Z.max x xs)%Z ∧
  ∀ y, y ∈ xs → (y ≤ foldl Z.max x xs)%Z.
Proof.
  revert x. induction xs as [|y xs IH]; intros x; simpl.
  - split; [by left|]. split; [lia|]. intros y Hy. by apply elem_of_nil in Hy.
  - destruct (IH (Z.max x y)) as (Hin & Hle & Hall). split; [|split].
    + destruct Hin as [Heq|Hin].
      * rewrite Heq. destruct (Z.max_spec x y) as [[_ ->]|[_ ->]]; [right; left|by left].
      * right. by right.
    + lia.
    + intros z Hz. apply elem_of_cons in Hz as [->|Hz]; [lia|by apply Hall].
Qed.

Lemma py_max_spec xs m :
  py_max xs = Ok m → m ∈ xs ∧ ∀ x, x ∈ xs → (x ≤ m)%Z.
Proof.
  destruct xs as [|x xs]; [done|]. simpl. intros [= <-].
  destruct (foldl_max_spec x xs) as (Hin & Hle & Hall). split.
  - destruct Hin as [->|Hin]; [left|by right].
  - intros y Hy. apply elem_of_cons in Hy as [->|Hy]; [done|by apply Hall].
Qed.

Lemma occupies_cons index word positions w p :
  occupies ((word, positions) :: index) w p ↔ (w = word ∧ p ∈ positions) ∨ occupies index w p.
Proof.
  unfold occupies. split.
  - intros (ps & Hin & Hp). apply elem_of_cons in Hin as [[= -> ->]|Hin]; eauto.
  - intros [[-> Hp]|(ps & Hin & Hp)].
    + exists positions. split; [left|done].
    + exists ps. split; [by right|done].
Qed.

(** The per-word maxima exist when every word has a position; each is an
    occupied position and together they bound every occupied position. *)
Lemma word_maxima index :
  (∀ word positions, (word, positions) ∈ index → positions ≠ []) →
  ∃ tops,
    map_r (λ '(_, positions), py_max positions) index = Ok tops ∧
    (index ≠ [] → tops ≠ []) ∧
    (∀ t, t ∈ tops → ∃ w, occupies index w t) ∧
    (∀ w p, occupies index w p → ∃ t, t ∈ tops ∧ (p ≤ t)%Z).
Proof.
  induction index as [|[word positions] index IH]; intros Hne.
  { exists []. repeat split; try done.
    - intros t Ht. by apply elem_of_nil in Ht.
    - intros w p (ps & Hin & _). by apply elem_of_nil in Hin. }
  destruct IH as (tops & Htops & _ & Hocc & Hbound).
  { intros w ps Hin. apply (Hne w). by right. }
  destruct (py_max positions) as [t|e] eqn:Ht.
  2: { destruct positions; [|done]. exfalso. apply (Hne word []); [left|done]. }
  destruct (py_max_spec _ _ Ht) as [Hin Hle].
  exists (t :: tops). simpl. unfold mbind, result_bind. rewrite Ht, Htops.
  repeat split; try done.
  - intros t' Ht'. apply elem_of_cons in Ht' as [->|Ht'].
    + exists word. apply occupies_cons. by left.
    + destruct (Hocc t' Ht') as [w Hw]. exists w. apply occupies_cons. by right.
  - intros w p Hp. apply occupies_cons in Hp as [[-> Hp]|Hp].
    + exists t. split; [left|by apply Hle].
    + destruct (Hbound w p Hp) as (t' & Ht' & Hle'). exists t'. split; [by right|done].
Qed.

Lemma positions_decode (positions : list Z) :
  positions_of (PList (PInt <$> positions)) = Ok positions.
Proof.
  unfold positions_of. induction positions as [|p ps IH]; [done|].
  rewrite fmap_cons. cbn [map_r as_index]. unfold mbind, result_bind in *.
  by rewrite IH.
Qed.

Lemma index_json_decodes (index : list (string * list Z)) :
  map_r (λ '(word, v), positions ← positions_of v; Ok (word, positions))
        ((λ '(word, positions), (word, PList (PInt <$> positions))) <$> index)
  = Ok index.
Proof.
  induction index as [|[word positions] index IH]; [done|].
  rewrite fmap_cons. cbn [map_r]. rewrite positions_decode.
  unfold mbind, result_bind in *. by rewrite IH.
Qed.

(** C6. The index of the specification's example rebuilds to
    "deep learning deep".  For every well-formed inverted index the adapter
    allocates one slot per position up to the greatest occupied one, puts each
    word in every slot it occupies, leaves the other slots empty, joins the
    slots with spaces and only then cuts the text at 500. *)
Theorem openalex_rebuilds_abstract :
  reconstruct_abstract (index_json deep_learning_index) = Ok (PStr "deep learning deep") ∧
  ∀ index, well_formed_index index →
    ∃ words top w,
      place_words index = Ok words ∧
      reconstruct_abstract (index_json index) = Ok (PStr (str_take 500 (join " " words))) ∧
      occupies index w top ∧
      (∀ word p, occupies index word p → (p ≤ top)%Z) ∧
      length words = S (Z.to_nat top) ∧
      (∀ word p, occupies index word p → words !! Z.to_nat p = Some word) ∧
      (∀ i, (i < length words)%nat → (∀ word, ¬ occupies index word (Z.of_nat i)) →
            words !! i = Some "").
Proof.
  split; [reflexivity|].
  intros index (Hne & Hpos & Hnonneg & Hfun).
  destruct (word_maxima index Hpos) as (tops & Htops & Htne & Hocc & Hbound).
  destruct (py_max tops) as [top|e] eqn:Htop.
  2: { destruct tops; [by destruct (Htne Hne)|done]. }
  destruct (py_max_spec _ _ Htop) as [Hin Hle].
  destruct (Hocc top Hin) as [w Hw].
  assert (∀ word p, occupies index word p → (p ≤ top)%Z) as Hmax.
  { intros word p Hp. destruct (Hbound word p Hp) as (t & Ht & ?).
    specialize (Hle t Ht). lia. }
  pose proof (Hnonneg w top Hw) as Htop0.
  destruct (assignments_run (assignments index) (replicate (Z.to_nat (top + 1)) ""))
    as (words & Hrun & Hlen & Hkeep & Hset).
  { intros p word Hin'. apply elem_of_assignments in Hin'. rewrite length_replicate.
    specialize (Hnonneg word p Hin'). specialize (Hmax word p Hin'). lia. }
  rewrite length_replicate in Hlen.
  assert (place_words index = Ok words) as Hplace.
  { unfold place_words, mbind, result_bind. rewrite Htops, Htop.
    by rewrite nested_loops_assignments. }
  exists words, top, w. split; [exact Hplace|]. split.
  { unfold reconstruct_abstract, index_json.
    assert (truthy (PDict ((λ '(word, positions), (word, PList (PInt <$> positions)))
                             <$> index)) = true) as ->.
    { by destruct index. }
    unfold mbind at 1, result_bind at 1. rewrite index_json_decodes.
    unfold mbind, result_bind. by rewrite Hplace. }
  split; [exact Hw|]. split; [exact Hmax|]. split; [lia|]. split.
  - intros word p Hp. apply Hset.
    + intros p' w1 w2 H1 H2. apply (Hfun w1 w2 p'); by apply elem_of_assignments.
    + by apply elem_of_assignments.
  - intros i Hi Hfree. rewrite Hkeep.
    + apply lookup_replicate_2. lia.
    + intros word Hin'. apply (Hfree word). by apply elem_of_assignments.
Qed.

Lemma deep_learning_index_well_formed : well_formed_index deep_learning_index.
Proof.
  unfold well_formed_index, deep_learning_index. split; [done|].
  assert (∀ w p, occupies [("deep", [0; 2]); ("learning", [1])] w p →
                 (w = "deep" ∧ (p = 0 ∨ p = 2)) ∨ (w = "learning" ∧ p = 1)) as Hocc.
  { intros w p (ps & Hin & Hp).
    repeat (apply elem_of_cons in Hin as [[= -> ->]|Hin]);
      [left|right|by apply elem_of_nil in Hin]; (split; [done|]);
      repeat (apply elem_of_cons in Hp as [->|Hp]); auto; by apply elem_of_nil in Hp. }
  split; [|split].
  - intros w ps Hin.
    repeat (apply elem_of_cons in Hin as [[= -> ->]|Hin]); try done.
    by apply elem_of_nil in Hin.
  - intros w p Hp. destruct (Hocc w p Hp) as [[_ [? | ?]]|[_ ?]]; lia.
  - intros w1 w2 p H1 H2.
    destruct (Hocc w1 p H1) as [[? [? | ?]]|[? ?]],
             (Hocc w2 p H2) as [[? [? | ?]]|[? ?]]; subst; done || lia.
Qed.

Lemma openalex_rebuilds_abstract_witness :
  ∃ words top w,
    place_words deep_learning_index = Ok words ∧
    reconstruct_abstract (index_json deep_learning_index)
      = Ok (PStr (str_take 500 (join " " words))) ∧
    occupies deep_learning_index w top ∧
    (∀ word p, occupies deep_learning_index word p → (p ≤ top)%Z) ∧
    length words = S (Z.to_nat top) ∧
    (∀ word p, occupies deep_learning_index word p → words !! Z.to_nat p = Some word) ∧
    (∀ i, (i < length words)%nat →
          (∀ word, ¬ occupies deep_learning_index word (Z.of_nat i)) → words !! i = Some "").
Proof.
  exact (proj2 openalex_rebuilds_abstract deep_learning_index deep_learning_index_well_formed).
Defined.

(** ** The cache key *)

(** The digest agrees with [hashlib.md5] on the RFC 1321 test vectors and on a
    text with a two-byte character. *)
Example md5_empty : MD5.hexdigest (encode "") = "d41d8cd98f00b204e9800998ecf8427e".
Proof. by vm_compute. Qed.

Example md5_abc : MD5.hexdigest (encode "abc") = "900150983cd24fb0d6963f7d28e17f72".
Proof. by vm_compute. Qed.

Example md5_eighty_digits :
  MD5.hexdigest (encode ("1234567890123456789012345678901234567890"
                         +:+ "1234567890123456789012345678901234567890"))
  = "57edf4a22be3c955ac49da2e2107b67a".
Proof. by vm_compute. Qed.

Example md5_latin1 :
  cache_key (String "c" (String "a" (String "f" (String (ascii_of_N 233) "")))) ["arxiv"]
  = "8d456003a3314455f9d7d73a7631f2de".
Proof. by vm_compute. Qed.

Example cache_key_graph :
  cache_key "graph neural networks" ["arxiv"] = "40fdfdba9657517a7dafcb161f551a21".
Proof. by vm_compute. Qed.

Lemma sorted_Permutation (l1 l2 : list string) : l1 ≡ₚ l2 → sorted l1 = sorted l2.
Proof.
  intros Hperm. unfold sorted. apply (Sorted_unique String.le).
  - apply Sorted_merge_sort, _.
  - apply Sorted_merge_sort, _.
  - by rewrite !merge_sort_Permutation.
Qed.

(** C7, as the code has it.  Two source lists that are permutations of one
    another (the same names, each as many times) give the same cache key, so
    both requests look up the same entry. *)
Theorem cache_key_order_invariant (q : string) (l1 l2 : list string) :
  l1 ≡ₚ l2 →
  cache_key q l1 = cache_key q l2 ∧
  ∀ w s, cache_lookup w (cache_key q l1) s = cache_lookup w (cache_key q l2) s.
Proof.
  intros Hperm.
  assert (cache_key q l1 = cache_key q l2) as Hkey.
  { unfold cache_key. by rewrite (sorted_Permutation l1 l2 Hperm). }
  split; [exact Hkey|]. intros w s. by rewrite Hkey.
Qed.

Lemma cache_key_order_invariant_witness :
  cache_key "q" ["pubmed"; "arxiv"] = cache_key "q" ["arxiv"; "pubmed"].
Proof.
  exact (proj1 (cache_key_order_invariant "q" ["pubmed"; "arxiv"] ["arxiv"; "pubmed"]
                  (perm_swap _ _ _))).
Defined.

Example cache_key_arxiv_twice :
  cache_key "q" ["arxiv"; "arxiv"] = "da2f9cf33ccd6f76c6974d82a0d7d238".
Proof. by vm_compute. Qed.

Example cache_key_arxiv_once : cache_key "q" ["arxiv"] = "1393169f8293aec5ddcbe2f88af54cdb".
Proof. by vm_compute. Qed.

(** C7, as stated, fails: a list that names a source twice contains the same
    set of names as the list that names it once, and gets another key. *)
Lemma same_names_other_key :
  ¬ (∀ (q : string) (l1 l2 : list string),
       (∀ name, name ∈ l1 ↔ name ∈ l2) → cache_key q l1 = cache_key q l2).
Proof.
  intros H. specialize (H "q" ["arxiv"; "arxiv"] ["arxiv"]).
  rewrite cache_key_arxiv_twice, cache_key_arxiv_once in H.
  assert (∀ name : string, name ∈ ["arxiv"; "arxiv"] ↔ name ∈ ["arxiv"]) as Hsame.
  { intros name. rewrite !elem_of_cons. split; [intros [?|[?|?]]|intros [?|?]]; auto. }
  by specialize (H Hsame).
Qed.

(** ** The aggregator, step by step *)

Lemma bind_ok {S A B} (m : M S A) (f : A → M S B) s a s' :
  m s = (Ok a, s') → (m ≫= f) s = f a s'.
Proof. intros H. unfold mbind, M_bind. by rewrite H. Qed.

Lemma cache_lookup_eq w key s : cache_lookup w key s = (Ok (lookup_hit w key s), s).
Proof.
  unfold cache_lookup, lookup_hit, get_state, mbind, M_bind, try_except, lift, redis_get.
  destruct (redis_client s) as [db|]; [|done].
  destruct (get_raises w); [done|].
  destruct (db !! key) as [[[e|t] expiry]|]; simpl; [| |done].
  - by destruct (time_get w <? expiry)%Z.
  - destruct (time_get w <? expiry)%Z; [|done]. simpl.
    by destruct (negb (String.eqb t "")).
Qed.

Lemma cache_store_eq w key e s : cache_store w key e s = (Ok tt, stored w key e s).
Proof.
  unfold cache_store, stored, get_state, mbind, M_bind, try_except, lift, redis_setex, modify.
  destruct (redis_client s) as [db|]; [|done]. simpl.
  by destruct (setex_raises w).
Qed.

Lemma logged_nil s : logged [] s = s.
Proof. destruct s. unfold logged. simpl. by rewrite app_nil_r. Qed.

Lemma logged_logged t1 t2 s : logged t2 (logged t1 s) = logged (t1 ++ t2) s.
Proof. unfold logged. simpl. by rewrite app_assoc. Qed.

Lemma collect_run name body results s :
  collect name (run_adapter name body) results s
  = (Ok (collected name body results), logged (trace_of name body) s).
Proof.
  unfold collect, run_adapter, try_except, mbind, M_bind, emit, modify, lift, collected,
    trace_of, logged.
  destruct body as [rs|e]; simpl; [|done]. by rewrite <- app_assoc.
Qed.

Lemma maybe_collect (b : bool) name body results s :
  (if b then collect name (run_adapter name body) results else mret results) s
  = (Ok (if b then collected name body results else results),
     logged (if b then trace_of name body else []) s).
Proof. destruct b; [apply collect_run|by rewrite logged_nil]. Qed.

(** A call is answered from the cache when the lookup finds an envelope;
    otherwise it returns [aggregate], logs the adapters it ran and stores the
    envelope. *)
Lemma search_all_sources_eq A w q srcs s :
  search_all_sources A w q srcs s =
    let sources := default ALL_SOURCES srcs in
    let key := cache_key q sources in
    match lookup_hit w key s with
    | Some e => (Ok e, s)
    | None =>
        (Ok (aggregate A w q sources),
         stored w key (aggregate A w q sources) (logged (aggregate_trace A q sources) s))
    end.
Proof.
  unfold search_all_sources. cbv zeta.
  set (sources := default ALL_SOURCES srcs). set (key := cache_key q sources).
  rewrite (bind_ok _ _ _ _ _ (cache_lookup_eq w key s)).
  destruct (lookup_hit w key s) as [e|]; [done|].
  set (r0 := {| query := q; timestamp := now_isoformat w; sources := []; total_results := 0 |}).
  set (b1 := bool_decide ("semantic" ∈ sources)).
  set (b2 := bool_decide ("openalex" ∈ sources)).
  set (r1 := if b1 then collected "semantic" (call A "semantic" q) r0 else r0).
  set (r2 := if b2 then collected "openalex" (call A "openalex" q) r1 else r1).
  set (t1 := if b1 then trace_of "semantic" (call A "semantic" q) else []).
  set (t2 := if b2 then trace_of "openalex" (call A "openalex" q) else []).
  erewrite (bind_ok _ _ s r2 (logged (t1 ++ t2) s)); cycle 1.
  { subst r1 r2 t1 t2. destruct b1, b2; simpl;
      rewrite ?(bind_ok _ _ _ _ _ (collect_run _ _ _ _)), ?collect_run, ?logged_logged,
        ?app_nil_r, ?logged_nil; try done. }
  erewrite bind_ok by apply maybe_collect.
  erewrite bind_ok by apply maybe_collect.
  erewrite bind_ok by apply maybe_collect.
  erewrite bind_ok by apply cache_store_eq.
  rewrite !logged_logged. unfold aggregate, aggregate_trace, HANDLED. simpl.
  rewrite app_nil_r, !app_assoc. done.
Qed.

(** ** What a computed envelope holds *)

Lemma dict_set_fresh {A} name (v : A) d :
  name ∉ d.*1 → dict_set name v d = (d ++ [(name, v)])%list.
Proof.
  induction d as [|[k x] d IH]; intros Hfresh; simpl; [done|].
  apply not_elem_of_cons in Hfresh as [Hne Hfresh].
  destruct (decide (k = name)) as [->|_]; [done|]. by rewrite IH.
Qed.

Lemma count_records_app q ts d1 d2 n :
  count_records {| query := q; timestamp := ts; sources := (d1 ++ d2)%list; total_results := n |}
  = (foldr (λ '(_, rs) n, Z.of_nat (length rs) + n) 0 d1
     + foldr (λ '(_, rs) n, Z.of_nat (length rs) + n) 0 d2)%Z.
Proof.
  unfold count_records. simpl. induction d1 as [|[k rs] d1 IH]; simpl; [done|].
  rewrite IH. lia.
Qed.

Lemma collected_fresh name body results :
  name ∉ (sources results).*1 →
  consistent results →
  consistent (collected name body results) ∧
  (sources (collected name body results)).*1 = ((sources results).*1 ++ [name])%list.
Proof.
  intros Hfresh Hcons. unfold consistent in *. destruct results as [q ts d n].
  simpl in *. unfold collected, set_source, add_total.
  destruct body as [rs|e]; simpl; rewrite (dict_set_fresh _ _ _ Hfresh);
    rewrite count_records_app, fmap_app; simpl; unfold count_records in Hcons;
    simpl in Hcons; split; done || lia.
Qed.

Lemma aggregate_fold (A : adapters) (q : string) (requested names : list string)
    (results : SearchEnvelope) :
  NoDup names →
  (∀ name, name ∈ names → name ∉ (sources results).*1) →
  consistent results →
  let results' :=
    foldl (λ results name,
             if bool_decide (name ∈ requested) then collected name (call A name q) results
             else results) results names in
  consistent results' ∧
  (sources results').*1
    = ((sources results).*1 ++ filter (λ name, name ∈ requested) names)%list.
Proof.
  revert results. induction names as [|name names IH]; intros results Hnd Hfresh Hcons.
  { simpl. by rewrite app_nil_r. }
  apply NoDup_cons in Hnd as [Hname Hnd]. simpl. rewrite filter_cons.
  destruct (decide (name ∈ requested)) as [Hin|Hout].
  - rewrite bool_decide_eq_true_2 by done.
    destruct (collected_fresh name (call A name q) results) as [Hc Hk];
      [apply Hfresh; left|done|].
    destruct (IH (collected name (call A name q) results)) as [Hc' Hk']; [done| |done|].
    { intros n Hn. rewrite Hk. rewrite elem_of_app, list_elem_of_singleton.
      intros [Hold| ->]; [|done]. revert Hold. apply Hfresh. by right. }
    split; [exact Hc'|]. cbv zeta in Hk'. rewrite Hk', Hk. by rewrite <- app_assoc.
  - rewrite bool_decide_eq_false_2 by done.
    apply IH; [done| |done]. intros n Hn. apply Hfresh. by right.
Qed.

Lemma NoDup_HANDLED : NoDup HANDLED.
Proof. apply (bool_decide_unpack _). by vm_compute. Qed.

Lemma aggregate_spec A w q requested :
  consistent (aggregate A w q requested) ∧
  (sources (aggregate A w q requested)).*1 = filter (λ name, name ∈ requested) HANDLED ∧
  query (aggregate A w q requested) = q ∧
  timestamp (aggregate A w q requested) = now_isoformat w.
Proof.
  unfold aggregate.
  set (r0 := {| query := q; timestamp := now_isoformat w; sources := []; total_results := 0 |}).
  destruct (aggregate_fold A q requested HANDLED r0) as [Hc Hk].
  - apply NoDup_HANDLED.
  - intros name _ Hin. by apply elem_of_nil in Hin.
  - done.
  - split; [exact Hc|]. split; [exact Hk|].
    unfold HANDLED. simpl.
    repeat (case_bool_decide; simpl); unfold collected;
      repeat (case_match; simpl); done.
Qed.

(** ** The envelope of a call *)

Lemma lookup_hit_consistent w key s e :
  cache_consistent s → lookup_hit w key s = Some e → consistent e.
Proof.
  unfold lookup_hit. intros Hc H.
  destruct (redis_client s) as [db|] eqn:Hdb; [|done].
  destruct (get_raises w); [done|].
  destruct (db !! key) as [[[e'|t] expiry]|] eqn:Hkey; try done.
  destruct (time_get w <? expiry)%Z; [|done]. injection H as ->.
  by apply (Hc db key e expiry).
Qed.

Lemma stored_consistent w key e t s :
  cache_consistent s → consistent e → cache_consistent (stored w key e (logged t s)).
Proof.
  intros Hc He db k e' expiry. unfold stored, logged. simpl.
  destruct (redis_client s) as [db0|] eqn:Hdb0; [|done].
  destruct (setex_raises w); simpl.
  - intros [= <-]. by apply Hc.
  - intros [= <-]. rewrite lookup_insert. case_decide.
    + by intros [= <- _].
    + by apply Hc.
Qed.

Lemma cache_miss w key s : cache_lookup w key s = (Ok None, s) → lookup_hit w key s = None.
Proof. rewrite cache_lookup_eq. by intros [= ->]. Qed.

(** C1. Whatever the five adapters do, raising included, a call returns an
    envelope whose [total_results] is the number of records in its [sources],
    provided the envelopes the cache holds are consistent; and the call
    leaves the cache in such a state. *)
Theorem total_results_is_sum (A : adapters) (w : world) (q : string)
    (srcs : option (list string)) (s : state) :
  cache_consistent s →
  ∃ e s', search_all_sources A w q srcs s = (Ok e, s') ∧
          consistent e ∧ cache_consistent s'.
Proof.
  intros Hc. rewrite search_all_sources_eq. cbv zeta.
  destruct (lookup_hit _ _ s) as [e|] eqn:Hhit.
  - exists e, s. repeat split; [by eapply lookup_hit_consistent|done].
  - eexists _, _. split; [done|].
    destruct (aggregate_spec A w q (default ALL_SOURCES srcs)) as (Hcons & _).
    split; [done|]. by apply stored_consistent.
Qed.

Lemma empty_backend_consistent : cache_consistent empty_backend.
Proof. intros db key e expiry [= <-] Hkey. by rewrite lookup_empty in Hkey. Qed.

Lemma total_results_is_sum_witness :
  ∃ e s', search_all_sources (adapters_of semantic_null_authors) at_noon "q" None empty_backend
          = (Ok e, s') ∧ consistent e ∧ cache_consistent s'.
Proof.
  exact (total_results_is_sum (adapters_of semantic_null_authors) at_noon "q" None
           empty_backend empty_backend_consistent).
Defined.



(** ** Cache hits *)

Lemma lookup_hit_live w key s db e expiry :
  redis_client s = Some db → get_raises w = false →
  db !! key = Some (JsonOf e, expiry) → (time_get w < expiry)%Z →
  lookup_hit w key s = Some e.
Proof.
  intros Hdb Hget Hkey Hlive. unfold lookup_hit. rewrite Hdb, Hget, Hkey.
  by rewrite (proj2 (Z.ltb_lt _ _) Hlive).
Qed.

(** C3. With a backend configured, a readable entry under the request's key
    that has not expired is returned as it was stored, timestamp included;
    the state, and with it the log of adapter runs, is unchanged.  So after a
    call that computed and stored an envelope, a second call for the same
    query and sources made before the 86400 seconds are over returns that
    same envelope and runs no adapter, whatever the adapters would answer. *)
Theorem cache_hit_returns_stored_envelope :
  (∀ (A : adapters) (w : world) (q : string) (srcs : option (list string)) (s : state)
     (db : gmap string (cached_text * Z)) (e : SearchEnvelope) (expiry : Z),
     redis_client s = Some db → get_raises w = false →
     db !! cache_key q (default ALL_SOURCES srcs) = Some (JsonOf e, expiry) →
     (time_get w < expiry)%Z →
     search_all_sources A w q srcs s = (Ok e, s)) ∧
  (∀ (A1 A2 : adapters) (w1 w2 : world) (q : string) (srcs : option (list string))
     (s : state),
     is_Some (redis_client s) →
     cache_lookup w1 (cache_key q (default ALL_SOURCES srcs)) s = (Ok None, s) →
     setex_raises w1 = false → get_raises w2 = false →
     (time_get w2 < time_setex w1 + TTL)%Z →
     ∃ e s1, search_all_sources A1 w1 q srcs s = (Ok e, s1) ∧
             timestamp e = now_isoformat w1 ∧
             search_all_sources A2 w2 q srcs s1 = (Ok e, s1)).
Proof.
  split.
  - intros A w q srcs s db e expiry Hdb Hget Hkey Hlive.
    rewrite search_all_sources_eq. cbv zeta.
    by rewrite (lookup_hit_live _ _ _ _ _ _ Hdb Hget Hkey Hlive).
  - intros A1 A2 w1 w2 q srcs s [db Hdb] Hmiss Hset Hget Hlive.
    apply cache_miss in Hmiss.
    rewrite search_all_sources_eq. cbv zeta. rewrite Hmiss.
    eexists _, _. split; [done|]. split.
    { by destruct (aggregate_spec A1 w1 q (default ALL_SOURCES srcs)) as (_ & _ & _ & ->). }
    rewrite search_all_sources_eq. cbv zeta.
    erewrite lookup_hit_live; [done| |done| |exact Hlive].
    + unfold stored, logged. simpl. by rewrite Hdb, Hset.
    + apply lookup_insert_eq.
Qed.

Lemma cache_hit_returns_stored_envelope_witness :
  search_all_sources (adapters_of unreachable) an_hour_later "q" (Some ["arxiv"]) warm_backend
    = (Ok stored_envelope, warm_backend) ∧
  ∃ e s1,
    search_all_sources (adapters_of semantic_null_authors) at_noon "q" None empty_backend
      = (Ok e, s1) ∧
    timestamp e = "2024-05-01T12:00:00.000000" ∧
    search_all_sources (adapters_of unreachable) an_hour_later "q" None s1 = (Ok e, s1).
Proof.
  split.
  - apply (proj1 cache_hit_returns_stored_envelope (adapters_of unreachable) an_hour_later
             "q" (Some ["arxiv"]) warm_backend
             {["1393169f8293aec5ddcbe2f88af54cdb" := (JsonOf stored_envelope, 129615)]}
             stored_envelope 129615).
    + reflexivity.
    + reflexivity.
    + vm_compute. reflexivity.
    + reflexivity.
  - exact (proj2 cache_hit_returns_stored_envelope
             (adapters_of semantic_null_authors) (adapters_of unreachable)
             at_noon an_hour_later "q" None empty_backend
             (ex_intro _ ∅ eq_refl) eq_refl eq_refl eq_refl eq_refl).
Defined.

(** ** Order of the adapter runs *)

Lemma call_adapters_of_Ok up name q : ∃ rs, call (adapters_of up) name q = Ok rs.
Proof.
  unfold call, adapters_of. simpl. repeat case_decide; eexists.
  - apply search_semantic_scholar_async_eq.
  - apply search_openalex_async_eq.
  - apply search_google_scholar_returns.
  - apply search_pubmed_eq.
  - apply search_arxiv_eq.
Qed.

(** C5 on the code.  A request for all five sources with no cache runs the
    adapters strictly one after another: each adapter starts only when the
    one before it has returned, the two coroutines included. *)
Theorem adapters_run_one_after_another (up : upstream) (w : world) (q : string) :
  ∃ e s', search_all_sources (adapters_of up) w q None no_backend = (Ok e, s') ∧
          log s' = [Started "semantic"; Returned "semantic";
                    Started "openalex"; Returned "openalex";
                    Started "scholar"; Returned "scholar";
                    Started "pubmed"; Returned "pubmed";
                    Started "arxiv"; Returned "arxiv"].
Proof.
  rewrite search_all_sources_eq. cbv zeta.
  change (lookup_hit w _ no_backend) with (@None SearchEnvelope).
  eexists _, _. split; [done|].
  unfold stored, logged, no_backend, aggregate_trace, HANDLED. simpl.
  destruct (call_adapters_of_Ok up "semantic" q) as [? ->].
  destruct (call_adapters_of_Ok up "openalex" q) as [? ->].
  destruct (call_adapters_of_Ok up "scholar" q) as [? ->].
  destruct (call_adapters_of_Ok up "pubmed" q) as [? ->].
  destruct (call_adapters_of_Ok up "arxiv" q) as [? ->].
  done.
Qed.

(** ** The arXiv example *)

Lemma arxiv_record_fields entry r :
  arxiv_record entry = Ok r →
  source r = "arXiv" ∧ venue r = PStr "arXiv Preprint" ∧ citations r = NA.
Proof.
  intros H. unfold arxiv_record in H. inv_result H. by injection H as <-.
Qed.

Lemma search_arxiv_fields up q n :
  ∃ rs, search_arxiv up q n = Ok rs ∧
        (length rs ≤ length (entries_of (arxiv_query up ("all:" +:+ q) n)))%nat ∧
        Forall (λ r, source r = "arXiv" ∧ venue r = PStr "arXiv Preprint"
                     ∧ citations r = NA) rs.
Proof.
  eexists. split; [apply search_arxiv_eq|]. split; [apply prefix_ok_length|].
  apply prefix_ok_Forall. intros x y _. apply arxiv_record_fields.
Qed.

(** C4 on the code.  The endpoint drops the request's [num_results]: the
    arXiv adapter asks for 10 entries, and when arXiv sends the 10 it was
    asked for, the request for 5 gets 10 records. *)
Theorem graph_request_gets_ten_records :
  ∃ e message s' rs,
    search_endpoint (adapters_of arxiv_cooperates) at_noon graph_request no_backend
      = (Ok (Success e message), s') ∧
    num_results graph_request = 5 ∧
    sources e = [("arxiv", rs)] ∧
    length rs = 10%nat ∧
    Forall (λ r, source r = "arXiv" ∧ venue r = PStr "arXiv Preprint" ∧ citations r = NA) rs.
Proof.
  eexists _, _, _, _. split; [vm_compute; reflexivity|].
  split; [done|]. split; [reflexivity|]. split; [reflexivity|].
  repeat constructor.
Qed.

(** * Further properties of the adapters *)

(** ** How many records, and in which order *)

Lemma scholar_loop_length n i pubs fails rs :
  (length (scholar_loop n i pubs fails rs).2 ≤ length rs + Z.to_nat (n - i))%nat ∧
  (length (scholar_loop n i pubs fails rs).2 ≤ length rs + length pubs)%nat.
Proof.
  revert i rs. induction pubs as [|pub pubs IH]; intros i rs; simpl.
  { destruct fails; simpl; split; lia. }
  destruct (Z.geb_spec i n) as [Hge|Hlt]; simpl; [split; lia|].
  rewrite !bind_lift.
  destruct (py_get pub "bib" (PDict [])) as [bib|e]; simpl; [|split; lia].
  rewrite !bind_lift.
  destruct (scholar_record pub bib) as [r|e]; simpl; [|split; lia].
  rewrite !bind_append, !bind_lift.
  destruct (py_get bib "title" NA ≫= λ t, py_slice_to 50 t) as [t|e]; simpl.
  - destruct (IH (i + 1)%Z (rs ++ [r])%list) as [H1 H2].
    rewrite length_app in H1, H2. simpl in H1, H2. split; lia.
  - rewrite length_app. simpl. split; lia.
Qed.

(** Google Scholar stops the enumeration itself: it never returns more
    records than [num_results] (none when that is zero or negative), nor
    more than the iterator yielded. *)
Theorem scholar_returns_at_most_num_results (up : upstream) (q : string) (n : Z) :
  ∃ rs, search_google_scholar up q n = Ok rs ∧
        (length rs ≤ Z.to_nat n)%nat ∧
        match scholarly_search_pubs up q with
        | Ok stream => (length rs ≤ length (yielded stream))%nat
        | Raise _ => rs = []
        end.
Proof.
  eexists. split; [apply search_google_scholar_returns|].
  unfold scholar_body, mbind, M_bind, lift.
  destruct (scholarly_search_pubs up q) as [stream|e]; simpl.
  - destruct (scholar_loop_length n 0 (yielded stream) (then_raises stream) []) as [H1 H2].
    simpl in H1, H2. rewrite Z.sub_0_r in H1. done.
  - split; [lia|done].
Qed.

Lemma prefix_ok_spec {A B} (f : A → result B) (xs : list A) :
  ∃ k, Forall2 (λ x y, f x = Ok y) (take k xs) (prefix_ok f xs) ∧
       match xs !! k with
       | Some x => raised (f x)
       | None => True
       end.
Proof.
  induction xs as [|x xs (k & Hk & Hstop)]; simpl.
  { exists 0%nat. by split; [constructor|]. }
  destruct (f x) as [y|e] eqn:Hx.
  - exists (S k). split; [by constructor|done].
  - exists 0%nat. simpl. split; [constructor|]. rewrite Hx. by exists e.
Qed.

Lemma successes_spec {A B} (f : A → result B) (xs : list A) :
  Forall2 (λ x y, f x = Ok y)
          (List.filter (λ x, match f x with Ok _ => true | Raise _ => false end) xs)
          (successes f xs).
Proof.
  induction xs as [|x xs IH]; simpl; [constructor|].
  destruct (f x) as [y|e] eqn:Hx; [by constructor|done].
Qed.

(** The loops keep the upstream order.  For arXiv, Semantic Scholar and
    OpenAlex the records are those of the first [k] items of the answer, one
    per item and in the same order, and item [k], if there is one, is the
    item whose normalization raised.  For PubMed they are those of the
    articles that normalize, in document order. *)
Theorem records_follow_the_upstream_order (up : upstream) (q : string) (n : Z) :
  (∃ rs k, search_arxiv up q n = Ok rs ∧
     Forall2 (λ entry r, arxiv_record entry = Ok r)
             (take k (entries_of (arxiv_query up ("all:" +:+ q) n))) rs ∧
     match entries_of (arxiv_query up ("all:" +:+ q) n) !! k with
     | Some entry => raised (arxiv_record entry)
     | None => True
     end) ∧
  (∃ rs k, search_semantic_scholar_async up q n = Ok rs ∧
     Forall2 (λ paper r, semantic_record paper = Ok r)
             (take k (items_of (semantic_search up q n) "data")) rs ∧
     match items_of (semantic_search up q n) "data" !! k with
     | Some paper => raised (semantic_record paper)
     | None => True
     end) ∧
  (∃ rs k, search_openalex_async up q n = Ok rs ∧
     Forall2 (λ work r, openalex_record work = Ok r)
             (take k (items_of (openalex_works up q n) "results")) rs ∧
     match items_of (openalex_works up q n) "results" !! k with
     | Some work => raised (openalex_record work)
     | None => True
     end) ∧
  (∃ rs, search_pubmed up q n = Ok rs ∧
     Forall2 (λ article r, pubmed_record article = Ok r)
             (List.filter (λ article, match pubmed_record article with
                                      | Ok _ => true
                                      | Raise _ => false
                                      end) (articles_of up q n)) rs).
Proof.
  split; [|split; [|split]].
  - destruct (prefix_ok_spec arxiv_record (entries_of (arxiv_query up ("all:" +:+ q) n)))
      as (k & Hk & Hstop).
    eexists _, k. split; [apply search_arxiv_eq|]. by split.
  - destruct (prefix_ok_spec semantic_record (items_of (semantic_search up q n) "data"))
      as (k & Hk & Hstop).
    eexists _, k. split; [apply search_semantic_scholar_async_eq|]. by split.
  - destruct (prefix_ok_spec openalex_record (items_of (openalex_works up q n) "results"))
      as (k & Hk & Hstop).
    eexists _, k. split; [apply search_openalex_async_eq|]. by split.
  - eexists. split; [apply search_pubmed_eq|]. apply successes_spec.
Qed.

(** ** What the records say *)

Lemma scholar_record_label pub bib r : scholar_record pub bib = Ok r → source r = "Google Scholar".
Proof. intros H. unfold scholar_record in H. inv_result H. by injection H as <-. Qed.

Lemma pubmed_record_label article r :
  pubmed_record article = Ok r →
  source r = "PubMed" ∧ citations r = NA ∧ venue r = PStr "PubMed".
Proof.
  intros H. unfold pubmed_record in H. cbv zeta in H. inv_result H. by injection H as <-.
Qed.

Lemma semantic_record_label paper r : semantic_record paper = Ok r → source r = "Semantic Scholar".
Proof. intros H. unfold semantic_record in H. inv_result H. by injection H as <-. Qed.

Lemma openalex_record_label work r : openalex_record work = Ok r → source r = "OpenAlex".
Proof. intros H. unfold openalex_record in H. inv_result H. by injection H as <-. Qed.

(** Every record an adapter returns carries that adapter's own source label;
    PubMed and arXiv records have no citation count (["N/A"]) and a fixed
    venue. *)
Theorem records_carry_their_source_label (up : upstream) (q : string) (n : Z) :
  (∃ rs, search_google_scholar up q n = Ok rs ∧
         Forall (λ r, source r = "Google Scholar") rs) ∧
  (∃ rs, search_pubmed up q n = Ok rs ∧
         Forall (λ r, source r = "PubMed" ∧ citations r = NA ∧ venue r = PStr "PubMed") rs) ∧
  (∃ rs, search_arxiv up q n = Ok rs ∧
         Forall (λ r, source r = "arXiv" ∧ citations r = NA
                      ∧ venue r = PStr "arXiv Preprint") rs) ∧
  (∃ rs, search_semantic_scholar_async up q n = Ok rs ∧
         Forall (λ r, source r = "Semantic Scholar") rs) ∧
  (∃ rs, search_openalex_async up q n = Ok rs ∧ Forall (λ r, source r = "OpenAlex") rs).
Proof.
  split; [|split; [|split; [|split]]].
  - apply search_google_scholar_Forall. intros _ pub bib r _ _ _.
    apply scholar_record_label.
  - eexists. split; [apply search_pubmed_eq|].
    apply successes_Forall. intros x y _. apply pubmed_record_label.
  - eexists. split; [apply search_arxiv_eq|].
    apply prefix_ok_Forall. intros x y _ Hy.
    destruct (arxiv_record_fields _ _ Hy) as (? & ? & ?). done.
  - eexists. split; [apply search_semantic_scholar_async_eq|].
    apply prefix_ok_Forall. intros x y _. apply semantic_record_label.
  - eexists. split; [apply search_openalex_async_eq|].
    apply prefix_ok_Forall. intros x y _. apply openalex_record_label.
Qed.

(** An item without an abstract gets the abstract ["N/A"]: a bib, article or
    entry that has none, a Semantic Scholar paper whose abstract is missing,
    null or empty, an OpenAlex work whose inverted index is missing, null or
    empty. *)
Theorem absent_abstract_is_NA :
  (∀ pub d r, assoc "abstract" d = None →
              scholar_record pub (PDict d) = Ok r → abstract r = NA) ∧
  (∀ article r, find_desc "AbstractText" article = None →
                pubmed_record article = Ok r → abstract r = NA) ∧
  (∀ entry r, find_child (atom "summary") entry = None →
              arxiv_record entry = Ok r → abstract r = NA) ∧
  (∀ d r, truthy (from_option id PNone (assoc "abstract" d)) = false →
          semantic_record (PDict d) = Ok r → abstract r = NA) ∧
  (∀ d r, truthy (from_option id PNone (assoc "abstract_inverted_index" d)) = false →
          openalex_record (PDict d) = Ok r → abstract r = NA).
Proof.
  split; [|split; [|split; [|split]]].
  - intros pub d r Hd H. unfold scholar_record in H. inv_result H.
    injection H as <-. simpl.
    match goal with
    | E : py_get (PDict d) "abstract" NA = Ok ?v, E' : py_slice_to 500 ?v = Ok _ |- _ =>
        simpl in E; rewrite Hd in E; injection E as <-; by injection E' as <-
    end.
  - intros article r Hd H. unfold pubmed_record in H. cbv zeta in H.
    rewrite Hd in H. simpl in H. by injection H as <-.
  - intros entry r Hd H. unfold arxiv_record in H. rewrite Hd in H. inv_result H.
    injection H as <-. simpl.
    match goal with
    | E : (if py_ne_str NA "N/A" then _ else _) = Ok _ |- _ => by injection E as <-
    end.
  - intros d r Hd H. unfold semantic_record in H. inv_result H.
    injection H as <-. simpl.
    match goal with
    | E : py_get (PDict d) "abstract" NA = Ok ?v, E' : py_slice_to 500 (py_or ?v NA) = Ok _
      |- _ =>
        simpl in E; injection E as <-; unfold py_or in E';
        destruct (assoc "abstract" d) as [v'|]; simpl in *;
        [rewrite Hd in E'|]; by injection E' as <-
    end.
  - intros d r Hd H. unfold openalex_record in H. inv_result H.
    injection H as <-. simpl.
    match goal with
    | E : py_get (PDict d) "abstract_inverted_index" (PDict []) = Ok ?v,
      E' : reconstruct_abstract ?v = Ok _ |- _ =>
        simpl in E; injection E as <-; unfold reconstruct_abstract in E';
        destruct (assoc "abstract_inverted_index" d) as [v'|]; simpl in *;
        [rewrite Hd in E'|]; by injection E' as <-
    end.
Qed.

Lemma absent_abstract_is_NA_witness :
  (∃ r, scholar_record titled_pub (PDict [("title", PStr "Second")]) = Ok r ∧ abstract r = NA) ∧
  (∃ r, pubmed_record (Element "PubmedArticle" None [Element "PMID" (Some "31") []]) = Ok r
        ∧ abstract r = NA) ∧
  (∃ r, arxiv_record (Element (atom "entry") None []) = Ok r ∧ abstract r = NA) ∧
  (∃ r, semantic_record (PDict [("title", PStr "T"); ("abstract", PNone)]) = Ok r
        ∧ abstract r = NA) ∧
  (∃ r, openalex_record (PDict [("title", PStr "T"); ("abstract_inverted_index", PNone)])
        = Ok r ∧ abstract r = NA).
Proof.
  destruct absent_abstract_is_NA as (H1 & H2 & H3 & H4 & H5).
  split; [|split; [|split; [|split]]]; eexists.
  - split; [reflexivity|]. exact (H1 titled_pub [("title", PStr "Second")] _ eq_refl eq_refl).
  - split; [reflexivity|].
    exact (H2 (Element "PubmedArticle" None [Element "PMID" (Some "31") []]) _
              eq_refl eq_refl).
  - split; [reflexivity|]. exact (H3 (Element (atom "entry") None []) _ eq_refl eq_refl).
  - split; [reflexivity|].
    exact (H4 [("title", PStr "T"); ("abstract", PNone)] _ eq_refl eq_refl).
  - split; [reflexivity|].
    exact (H5 [("title", PStr "T"); ("abstract_inverted_index", PNone)] _ eq_refl eq_refl).
Defined.

(** ** Edge cases of single adapters *)

Lemma map_r_raises {A B} (f : A → result B) xs x :
  x ∈ xs → raised (f x) → raised (map_r f xs).
Proof.
  intros Hin [e He]. induction xs as [|y xs IH]; [by apply elem_of_nil in Hin|].
  simpl. unfold mbind, result_bind. apply elem_of_cons in Hin as [<-|Hin].
  - rewrite He. by exists e.
  - destruct (f y) as [b|e']; [|by exists e'].
    destruct (IH Hin) as [e' ->]. by exists e'.
Qed.

(** A word listed with no position at all makes the reconstruction raise
    ([max] of an empty list), so the work gets no record. *)
Theorem word_without_positions_raises (index : list (string * list Z)) (word : string) :
  (word, []) ∈ index →
  raised (place_words index) ∧
  raised (reconstruct_abstract (index_json index)) ∧
  ∀ d, assoc "abstract_inverted_index" d = Some (index_json index) →
       raised (openalex_record (PDict d)).
Proof.
  intros Hin.
  assert (raised (place_words index)) as Hplace.
  { unfold place_words, mbind, result_bind.
    destruct (map_r_raises (λ '(_, positions), py_max positions) index (word, []) Hin)
      as [e ->]; [by exists ValueError|]. by exists e. }
  assert (raised (reconstruct_abstract (index_json index))) as Hrec.
  { unfold reconstruct_abstract, index_json.
    assert (truthy (PDict ((λ '(word, positions), (word, PList (PInt <$> positions)))
                             <$> index)) = true) as ->.
    { destruct index; [by apply elem_of_nil in Hin|done]. }
    unfold mbind at 1, result_bind at 1. rewrite index_json_decodes.
    unfold mbind, result_bind. destruct Hplace as [e ->]. by exists e. }
  split; [done|]. split; [done|]. intros d Hd.
  unfold openalex_record, mbind, result_bind.
  destruct (openalex_authors (PDict d)) as [names|e]; [|by exists e].
  simpl. rewrite Hd. simpl. destruct Hrec as [e ->]. by exists e.
Qed.

Lemma word_without_positions_raises_witness :
  raised (place_words [("deep", [0]); ("learning", [])]).
Proof.
  apply (word_without_positions_raises [("deep", [0]); ("learning", [])] "learning").
  right. left.
Defined.

(** Google Scholar's progress line slices the title after the record is
    appended.  A first publication whose title cannot be sliced (a null
    title, say) is therefore returned, and the publications after it are not
    looked at. *)
Theorem unsliceable_title_ends_the_scan (up : upstream) (q : string) (n : Z)
    (stream : pub_stream) (pub : pyval) (rest : list pyval) (bib : pyval)
    (r : NormalizedRecord) :
  scholarly_search_pubs up q = Ok stream →
  yielded stream = pub :: rest →
  (0 < n)%Z →
  py_get pub "bib" (PDict []) = Ok bib →
  scholar_record pub bib = Ok r →
  raised (t ← py_get bib "title" NA; py_slice_to 50 t) →
  search_google_scholar up q n = Ok [r].
Proof.
  intros Hs Hy Hn Hbib Hr [e He].
  rewrite search_google_scholar_returns. f_equal.
  unfold scholar_body. rewrite bind_lift, Hs, Hy. simpl.
  destruct (Z.geb_spec 0 n) as [?|_]; [lia|].
  rewrite bind_lift, Hbib, bind_lift, Hr, bind_append, bind_lift, He. done.
Qed.

Lemma unsliceable_title_ends_the_scan_witness :
  ∃ r, search_google_scholar scholar_untitled_first "q" 10 = Ok [r] ∧ title r = PNone.
Proof.
  eexists. split.
  - apply (unsliceable_title_ends_the_scan scholar_untitled_first "q" 10
             {| yielded := [untitled_pub; titled_pub]; then_raises := false |}
             untitled_pub [titled_pub]
             (PDict [("title", PNone); ("author", PList [PStr "Ann"]);
                     ("pub_year", PInt 2020); ("abstract", PStr "text")])).
    + reflexivity.
    + reflexivity.
    + lia.
    + reflexivity.
    + reflexivity.
    + exists TypeError. reflexivity.
  - reflexivity.
Defined.

(** When PubMed's first answer lists no ids (the list is empty, missing or
    null) the adapter returns no record. *)
Theorem pubmed_without_ids_returns_nothing (up : upstream) (q : string) (n : Z)
    (data esearchresult ids : pyval) :
  pubmed_esearch up q n = Ok data →
  py_get data "esearchresult" (PDict []) = Ok esearchresult →
  py_get esearchresult "idlist" (PList []) = Ok ids →
  truthy ids = false →
  search_pubmed up q n = Ok [].
Proof.
  intros Hdata Hesr Hids Hfalsy. rewrite search_pubmed_eq. f_equal.
  unfold articles_of, mbind, result_bind. by rewrite Hdata, Hesr, Hids, Hfalsy.
Qed.

Lemma pubmed_without_ids_returns_nothing_witness :
  search_pubmed pubmed_no_match "q" 10 = Ok [].
Proof.
  exact (pubmed_without_ids_returns_nothing pubmed_no_match "q" 10 _ _ _
           eq_refl eq_refl eq_refl eq_refl).
Defined.

(** * Further properties of the cache key *)

Lemma le_bytes_length n x : length (MD5.le_bytes n x) = n.
Proof. revert x. induction n as [|n IH]; intros x; simpl; [done|]. by rewrite IH. Qed.

Lemma le_bytes_range n x : Forall (λ b, 0 ≤ b < 256)%Z (MD5.le_bytes n x).
Proof.
  revert x. induction n as [|n IH]; intros x; simpl; constructor; [|apply IH].
  apply Z.mod_pos_bound. lia.
Qed.

Lemma digest_bytes msg :
  length (MD5.digest msg) = 16%nat ∧ Forall (λ b, 0 ≤ b < 256)%Z (MD5.digest msg).
Proof.
  unfold MD5.digest. destruct (foldl MD5.block _ _) as [[[a b] c] d]. split.
  - by rewrite !length_app, !le_bytes_length.
  - repeat (apply Forall_app; split); apply le_bytes_range.
Qed.

Lemma hex_digit_is_hex n : (n < 16)%N → is_lower_hex (hex_digit n) = true.
Proof.
  intros Hn. rewrite <- (N2Nat.id n).
  assert (N.to_nat n < 16)%nat as Hk by lia. clear Hn.
  remember (N.to_nat n) as k eqn:Heq. clear Heq.
  do 16 (destruct k as [|k]; [by vm_compute|]). lia.
Qed.

Lemma hex_byte_length b acc :
  String.length (MD5.hex_byte b +:+ acc) = S (S (String.length acc)).
Proof. done. Qed.

Lemma hex_byte_chars p b acc :
  all_chars p (MD5.hex_byte b +:+ acc)
  = p (hex_digit (Z.to_N (b / 16))) && (p (hex_digit (Z.to_N (b mod 16))) && all_chars p acc).
Proof. done. Qed.

Lemma hex_bytes_format bytes :
  Forall (λ b, 0 ≤ b < 256)%Z bytes →
  String.length (foldr (λ b acc, MD5.hex_byte b +:+ acc) "" bytes) = (2 * length bytes)%nat ∧
  all_chars is_lower_hex (foldr (λ b acc, MD5.hex_byte b +:+ acc) "" bytes) = true.
Proof.
  induction 1 as [|b bytes Hb _ [IHlen IHhex]]; [done|].
  cbn [foldr]. rewrite hex_byte_length, hex_byte_chars, IHlen, IHhex.
  split; [simpl; lia|].
  rewrite !hex_digit_is_hex; [done| |].
  - pose proof (Z.mod_pos_bound b 16). lia.
  - assert (0 ≤ b / 16 < 16)%Z; [|lia].
    split; [apply Z.div_pos; lia|apply Z.div_lt_upper_bound; lia].
Qed.

(** The cache key is always 32 characters long, each a digit or a letter
    from a to f, whatever the query and the source names. *)
Theorem cache_key_is_32_hex_digits (q : string) (l : list string) :
  String.length (cache_key q l) = 32%nat ∧ all_chars is_lower_hex (cache_key q l) = true.
Proof.
  unfold cache_key, MD5.hexdigest.
  destruct (digest_bytes (encode (q +:+ ":" +:+ join "," (sorted l)))) as [Hlen Hrange].
  destruct (hex_bytes_format _ Hrange) as [H1 H2]. rewrite Hlen in H1. done.
Qed.

(** * Further properties of the aggregator *)

Lemma collected_sources_fresh A name q results :
  name ∉ (sources results).*1 →
  sources (collected name (call A name q) results)
  = (sources results ++ [(name, slot A name q)])%list.
Proof.
  intros Hfresh. unfold collected, slot, call.
  destruct (if decide (name = "semantic") then _ else _) as [rs|e]; simpl;
    by rewrite dict_set_fresh.
Qed.

Lemma aggregate_fold_sources (A : adapters) (q : string) (requested names : list string)
    (results : SearchEnvelope) :
  NoDup names →
  (∀ name, name ∈ names → name ∉ (sources results).*1) →
  sources (foldl (λ results name,
                    if bool_decide (name ∈ requested)
                    then collected name (call A name q) results
                    else results) results names)
  = (sources results
     ++ ((λ name, (name, slot A name q)) <$> filter (λ name, name ∈ requested) names))%list.
Proof.
  revert results. induction names as [|name names IH]; intros results Hnd Hfresh.
  { simpl. by rewrite app_nil_r. }
  apply NoDup_cons in Hnd as [Hname Hnd]. simpl. rewrite filter_cons.
  destruct (decide (name ∈ requested)) as [Hin|Hout].
  - rewrite bool_decide_eq_true_2 by done.
    assert (name ∉ (sources results).*1) as Hn by (apply Hfresh; left).
    rewrite IH; [|done|].
    + rewrite (collected_sources_fresh _ _ _ _ Hn), fmap_cons. by rewrite <- app_assoc.
    + intros n Hin'. rewrite (collected_sources_fresh _ _ _ _ Hn), fmap_app.
      rewrite elem_of_app. simpl. rewrite list_elem_of_singleton.
      intros [Hold| ->]; [|done]. revert Hold. apply Hfresh. by right.
  - rewrite bool_decide_eq_false_2 by done.
    apply IH; [done|]. intros n Hin'. apply Hfresh. by right.
Qed.

Lemma aggregate_sources A w q requested :
  sources (aggregate A w q requested)
  = (λ name, (name, slot A name q)) <$> filter (λ name, name ∈ requested) HANDLED.
Proof.
  unfold aggregate. rewrite aggregate_fold_sources; [done|apply NoDup_HANDLED|].
  intros name _ Hin. by apply elem_of_nil in Hin.
Qed.

(** A call that is not answered from the cache returns the request's query,
    the current time and, for each requested known source in turn, exactly
    what that source's adapter returned, or an empty list when awaiting the
    adapter raised: one source's failure leaves the other entries as they
    are. *)
Theorem sources_hold_each_adapters_answer (A : adapters) (w : world) (q : string)
    (srcs : option (list string)) (s : state) :
  cache_lookup w (cache_key q (default ALL_SOURCES srcs)) s = (Ok None, s) →
  ∃ e s', search_all_sources A w q srcs s = (Ok e, s') ∧
          query e = q ∧
          timestamp e = now_isoformat w ∧
          sources e = (λ name, (name, slot A name q))
                        <$> filter (λ name, name ∈ default ALL_SOURCES srcs) HANDLED.
Proof.
  intros Hmiss. apply cache_miss in Hmiss.
  rewrite search_all_sources_eq. cbv zeta. rewrite Hmiss.
  eexists _, _. split; [done|].
  destruct (aggregate_spec A w q (default ALL_SOURCES srcs)) as (_ & _ & -> & ->).
  by rewrite aggregate_sources.
Qed.

Lemma sources_hold_each_adapters_answer_witness :
  ∃ e s' r, search_all_sources (adapters_of semantic_null_authors) at_noon "q"
              (Some ["semantic"; "arxiv"]) no_backend = (Ok e, s') ∧
            sources e = [("semantic", [r]); ("arxiv", [])].
Proof.
  destruct (sources_hold_each_adapters_answer (adapters_of semantic_null_authors) at_noon "q"
              (Some ["semantic"; "arxiv"]) no_backend eq_refl)
    as (e & s' & Hrun & _ & _ & Hsources).
  eexists e, s', _. split; [exact Hrun|]. exact Hsources.
Defined.

Lemma flat_map_if_filter {A B} (P : A → Prop) `{∀ x, Decision (P x)} (f : A → list B) l :
  flat_map (λ x, if bool_decide (P x) then f x else []) l = flat_map f (filter P l).
Proof.
  induction l as [|x l IH]; [done|]. simpl. rewrite filter_cons.
  destruct (decide (P x)).
  - rewrite bool_decide_eq_true_2 by done. simpl. by rewrite IH.
  - by rewrite bool_decide_eq_false_2.
Qed.

Lemma aggregate_trace_adapters_of up q requested :
  aggregate_trace (adapters_of up) q requested
  = flat_map (λ name, [Started name; Returned name])
             (filter (λ name, name ∈ requested) HANDLED).
Proof.
  unfold aggregate_trace. rewrite flat_map_if_filter. apply flat_map_ext.
  intros name. by destruct (call_adapters_of_Ok up name q) as [rs ->].
Qed.

(** A call that is not answered from the cache runs the adapter of each
    requested known source exactly once, in the order semantic, openalex,
    scholar, pubmed, arxiv and each to its end before the next: a name
    listed twice or an unknown name adds no run, and no other adapter is
    started. *)
Theorem each_requested_adapter_runs_once (up : upstream) (w : world) (q : string)
    (srcs : option (list string)) (s : state) :
  cache_lookup w (cache_key q (default ALL_SOURCES srcs)) s = (Ok None, s) →
  ∃ e s', search_all_sources (adapters_of up) w q srcs s = (Ok e, s') ∧
          log s' = (log s ++ flat_map (λ name, [Started name; Returned name])
                               (filter (λ name, name ∈ default ALL_SOURCES srcs)
                                       HANDLED))%list.
Proof.
  intros Hmiss. apply cache_miss in Hmiss.
  rewrite search_all_sources_eq. cbv zeta. rewrite Hmiss.
  eexists _, _. split; [done|].
  rewrite <- (aggregate_trace_adapters_of up q). unfold stored, logged. simpl.
  destruct (redis_client s); [|done]. by destruct (setex_raises w).
Qed.

Lemma each_requested_adapter_runs_once_witness :
  ∃ e s', search_all_sources (adapters_of unreachable) at_noon "q"
            (Some ["arxiv"; "crossref"; "arxiv"; "semantic"]) empty_backend = (Ok e, s') ∧
          log s' = [Started "semantic"; Returned "semantic";
                    Started "arxiv"; Returned "arxiv"].
Proof.
  exact (each_requested_adapter_runs_once unreachable at_noon "q"
           (Some ["arxiv"; "crossref"; "arxiv"; "semantic"]) empty_backend eq_refl).
Defined.

(** ** The cache around a call *)

Lemma lookup_hit_no_backend w key s : redis_client s = None → lookup_hit w key s = None.
Proof. intros H. unfold lookup_hit. by rewrite H. Qed.

(** With no backend configured nothing is ever cached: two successive calls
    for the same query and sources both run the requested adapters, each
    stamps its envelope with its own time, and the state still has no
    backend. *)
Theorem without_backend_every_call_computes (up : upstream) (w1 w2 : world) (q : string)
    (srcs : option (list string)) (s : state) :
  redis_client s = None →
  ∃ e1 s1 e2 s2,
    search_all_sources (adapters_of up) w1 q srcs s = (Ok e1, s1) ∧
    search_all_sources (adapters_of up) w2 q srcs s1 = (Ok e2, s2) ∧
    timestamp e1 = now_isoformat w1 ∧
    timestamp e2 = now_isoformat w2 ∧
    redis_client s2 = None ∧
    let runs := flat_map (λ name, [Started name; Returned name])
                         (filter (λ name, name ∈ default ALL_SOURCES srcs) HANDLED) in
    log s2 = (log s ++ runs ++ runs)%list.
Proof.
  intros Hnone. rewrite search_all_sources_eq. cbv zeta.
  rewrite (lookup_hit_no_backend _ _ _ Hnone).
  eexists _, _, _, _. split; [done|].
  assert (redis_client (stored w1 (cache_key q (default ALL_SOURCES srcs))
                          (aggregate (adapters_of up) w1 q (default ALL_SOURCES srcs))
                          (logged (aggregate_trace (adapters_of up) q
                                     (default ALL_SOURCES srcs)) s)) = None) as Hnone1.
  { unfold stored, logged. simpl. by rewrite Hnone. }
  rewrite search_all_sources_eq. cbv zeta.
  rewrite (lookup_hit_no_backend _ _ _ Hnone1). split; [done|].
  destruct (aggregate_spec (adapters_of up) w1 q (default ALL_SOURCES srcs))
    as (_ & _ & _ & ->).
  destruct (aggregate_spec (adapters_of up) w2 q (default ALL_SOURCES srcs))
    as (_ & _ & _ & ->).
  split; [done|]. split; [done|].
  rewrite <- (aggregate_trace_adapters_of up q).
  unfold stored, logged. simpl. repeat (rewrite Hnone; simpl).
  split; [done|]. by rewrite <- app_assoc.
Qed.

Lemma without_backend_every_call_computes_witness :
  ∃ e1 s1 e2 s2,
    search_all_sources (adapters_of unreachable) at_noon "q" (Some ["arxiv"]) no_backend
      = (Ok e1, s1) ∧
    search_all_sources (adapters_of unreachable) an_hour_later "q" (Some ["arxiv"]) s1
      = (Ok e2, s2) ∧
    log s2 = [Started "arxiv"; Returned "arxiv"; Started "arxiv"; Returned "arxiv"].
Proof.
  destruct (without_backend_every_call_computes unreachable at_noon an_hour_later "q"
              (Some ["arxiv"]) no_backend eq_refl)
    as (e1 & s1 & e2 & s2 & H1 & H2 & _ & _ & _ & Hlog).
  exists e1, s1, e2, s2. split; [exact H1|]. split; [exact H2|]. exact Hlog.
Defined.

(** Errors of the backend never reach the caller.  When the read raises the
    call computes the envelope as on a miss; when the write raises the call
    still returns its envelope and the backend keeps what it held. *)
Theorem cache_errors_are_swallowed (A : adapters) (w : world) (q : string)
    (srcs : option (list string)) (s : state) :
  (get_raises w = true →
   ∃ e s', search_all_sources A w q srcs s = (Ok e, s') ∧
           timestamp e = now_isoformat w ∧
           sources e = (λ name, (name, slot A name q))
                         <$> filter (λ name, name ∈ default ALL_SOURCES srcs) HANDLED) ∧
  (setex_raises w = true →
   ∃ e s', search_all_sources A w q srcs s = (Ok e, s') ∧
           redis_client s' = redis_client s).
Proof.
  split.
  - intros Hget. rewrite search_all_sources_eq. cbv zeta.
    assert (lookup_hit w (cache_key q (default ALL_SOURCES srcs)) s = None) as ->.
    { unfold lookup_hit. rewrite Hget. by destruct (redis_client s). }
    eexists _, _. split; [done|].
    destruct (aggregate_spec A w q (default ALL_SOURCES srcs)) as (_ & _ & _ & ->).
    by rewrite aggregate_sources.
  - intros Hset. rewrite search_all_sources_eq. cbv zeta.
    destruct (lookup_hit _ _ s); eexists _, _; (split; [done|]); [done|].
    unfold stored, logged. simpl. rewrite Hset. by destruct (redis_client s).
Qed.

Lemma cache_errors_are_swallowed_witness :
  ∃ e s', search_all_sources (adapters_of unreachable) backend_down "q" (Some ["arxiv"])
            warm_backend = (Ok e, s') ∧
          timestamp e = "2024-05-01T13:00:00.000000" ∧
          redis_client s' = redis_client warm_backend.
Proof.
  destruct (cache_errors_are_swallowed (adapters_of unreachable) backend_down "q"
              (Some ["arxiv"]) warm_backend) as [Hget Hset].
  destruct (Hget eq_refl) as (e & s' & Hrun & Hts & _).
  destruct (Hset eq_refl) as (e' & s'' & Hrun' & Hdb).
  exists e, s'. split; [exact Hrun|]. split; [exact Hts|].
  rewrite Hrun in Hrun'. injection Hrun' as _ <-. exact Hdb.
Defined.

(** A call that misses and whose write succeeds leaves the backend as it
    was except for the request's key, which now holds the returned envelope
    and expires 86400 seconds after the write. *)
Theorem miss_stores_the_envelope_for_a_day (A : adapters) (w : world) (q : string)
    (srcs : option (list string)) (s : state) (db : gmap string (cached_text * Z)) :
  redis_client s = Some db →
  cache_lookup w (cache_key q (default ALL_SOURCES srcs)) s = (Ok None, s) →
  setex_raises w = false →
  ∃ e s', search_all_sources A w q srcs s = (Ok e, s') ∧
          redis_client s'
          = Some (<[cache_key q (default ALL_SOURCES srcs)
                    := (JsonOf e, time_setex w + 86400)]> db) ∧
          ∀ key, key ≠ cache_key q (default ALL_SOURCES srcs) →
                 ∃ db', redis_client s' = Some db' ∧ db' !! key = db !! key.
Proof.
  intros Hdb Hmiss Hset. apply cache_miss in Hmiss.
  rewrite search_all_sources_eq. cbv zeta. rewrite Hmiss.
  eexists _, _. split; [done|].
  unfold stored, logged. simpl. rewrite Hdb, Hset. simpl. split; [done|].
  intros key Hkey. eexists. split; [done|]. by apply lookup_insert_ne.
Qed.

Lemma miss_stores_the_envelope_for_a_day_witness :
  ∃ e s', search_all_sources (adapters_of unreachable) at_noon "q" (Some ["arxiv"])
            empty_backend = (Ok e, s') ∧
          redis_client s'
          = Some (<[cache_key "q" ["arxiv"] := (JsonOf e, 129615)]> ∅).
Proof.
  destruct (miss_stores_the_envelope_for_a_day (adapters_of unreachable) at_noon "q"
              (Some ["arxiv"]) empty_backend ∅ eq_refl eq_refl eq_refl)
    as (e & s' & Hrun & Hdb & _).
  exists e, s'. split; [exact Hrun|]. exact Hdb.
Defined.

(** An entry that has expired, or whose text does not parse, is not
    returned: the call computes a fresh envelope. *)
Theorem stale_entries_are_recomputed (A : adapters) (w : world) (q : string)
    (srcs : option (list string)) (s : state) (db : gmap string (cached_text * Z))
    (text : cached_text) (expiry : Z) :
  redis_client s = Some db →
  db !! cache_key q (default ALL_SOURCES srcs) = Some (text, expiry) →
  (expiry ≤ time_get w)%Z ∨ (∃ t, text = NotJson t) →
  ∃ e s', search_all_sources A w q srcs s = (Ok e, s') ∧
          timestamp e = now_isoformat w ∧
          sources e = (λ name, (name, slot A name q))
                        <$> filter (λ name, name ∈ default ALL_SOURCES srcs) HANDLED.
Proof.
  intros Hdb Hkey Hstale. rewrite search_all_sources_eq. cbv zeta.
  assert (lookup_hit w (cache_key q (default ALL_SOURCES srcs)) s = None) as ->.
  { unfold lookup_hit. rewrite Hdb, Hkey. destruct (get_raises w); [done|].
    destruct Hstale as [Hexp|[t ->]]; [|done].
    destruct text; [|done]. by rewrite (proj2 (Z.ltb_ge _ _) Hexp). }
  eexists _, _. split; [done|].
  destruct (aggregate_spec A w q (default ALL_SOURCES srcs)) as (_ & _ & _ & ->).
  by rewrite aggregate_sources.
Qed.

Lemma stale_entries_are_recomputed_witness :
  ∃ e s', search_all_sources (adapters_of unreachable) two_days_later "q" (Some ["arxiv"])
            warm_backend = (Ok e, s') ∧
          timestamp e = "2024-05-03T12:00:00.000000".
Proof.
  destruct (stale_entries_are_recomputed (adapters_of unreachable) two_days_later "q"
              (Some ["arxiv"]) warm_backend
              {["1393169f8293aec5ddcbe2f88af54cdb" := (JsonOf stored_envelope, 129615)]}
              (JsonOf stored_envelope) 129615 eq_refl)
    as (e & s' & Hrun & Hts & _).
  - vm_compute. reflexivity.
  - left. vm_compute. discriminate.
  - exists e, s'. split; [exact Hrun|]. exact Hts.
Defined.

(** ** Requests *)





(** Order does not matter to the cache as a whole: after a call that
    computed and stored an envelope, a request for the same query whose
    source list is a permutation of the first one, made before the entry
    expires, gets that same envelope and runs no adapter. *)
Theorem permuted_request_is_served_from_cache (A1 A2 : adapters) (w1 w2 : world)
    (q : string) (srcs1 srcs2 : option (list string)) (s : state) :
  default ALL_SOURCES srcs1 ≡ₚ default ALL_SOURCES srcs2 →
  is_Some (redis_client s) →
  cache_lookup w1 (cache_key q (default ALL_SOURCES srcs1)) s = (Ok None, s) →
  setex_raises w1 = false → get_raises w2 = false →
  (time_get w2 < time_setex w1 + TTL)%Z →
  ∃ e s1, search_all_sources A1 w1 q srcs1 s = (Ok e, s1) ∧
          search_all_sources A2 w2 q srcs2 s1 = (Ok e, s1).
Proof.
  intros Hperm [db Hdb] Hmiss Hset Hget Hlive. apply cache_miss in Hmiss.
  rewrite search_all_sources_eq. cbv zeta. rewrite Hmiss.
  eexists _, _. split; [done|].
  rewrite search_all_sources_eq. cbv zeta.
  assert (cache_key q (default ALL_SOURCES srcs2) = cache_key q (default ALL_SOURCES srcs1))
    as ->.
  { unfold cache_key. by rewrite (sorted_Permutation _ _ Hperm). }
  erewrite lookup_hit_live; [done| |done| |exact Hlive].
  - unfold stored, logged. simpl. by rewrite Hdb, Hset.
  - apply lookup_insert_eq.
Qed.

Lemma permuted_request_is_served_from_cache_witness :
  ∃ e s1,
    search_all_sources (adapters_of semantic_null_authors) at_noon "q"
      (Some ["semantic"; "arxiv"]) empty_backend = (Ok e, s1) ∧
    search_all_sources (adapters_of unreachable) an_hour_later "q"
      (Some ["arxiv"; "semantic"]) s1 = (Ok e, s1).
Proof.
  exact (permuted_request_is_served_from_cache
           (adapters_of semantic_null_authors) (adapters_of unreachable)
           at_noon an_hour_later "q" (Some ["semantic"; "arxiv"]) (Some ["arxiv"; "semantic"])
           empty_backend (perm_swap _ _ _) (ex_intro _ ∅ eq_refl)
           eq_refl eq_refl eq_refl eq_refl).
Defined.

(** ** The endpoints *)

Lemma call_only_at A name q : call (only_at DEFAULT_NUM_RESULTS A) name q = call A name q.
Proof. unfold call, only_at. simpl. by repeat case_decide. Qed.

(** The reply does not depend on the request's [num_results], and of each
    adapter only its answer for a limit of 10 matters: adapters that fail for
    every other limit give the same reply to a request with any
    [num_results]. *)
Theorem reply_ignores_num_results (A : adapters) (w : world) (q : string)
    (srcs : option (list string)) (n n' : Z) (s : state) :
  search_endpoint (only_at DEFAULT_NUM_RESULTS A) w
    {| request_query := q; request_sources := srcs; num_results := n |} s
  = search_endpoint A w
      {| request_query := q; request_sources := srcs; num_results := n' |} s.
Proof.
  unfold search_endpoint, try_except, mbind, M_bind. simpl.
  rewrite !search_all_sources_eq. cbv zeta.
  destruct (lookup_hit _ _ s); [done|].
  assert (aggregate (only_at DEFAULT_NUM_RESULTS A) w q (default ALL_SOURCES srcs)
          = aggregate A w q (default ALL_SOURCES srcs)) as ->.
  { unfold aggregate, HANDLED. cbn [foldl]. by rewrite !call_only_at. }
  assert (aggregate_trace (only_at DEFAULT_NUM_RESULTS A) q (default ALL_SOURCES srcs)
          = aggregate_trace A q (default ALL_SOURCES srcs)) as ->.
  { unfold aggregate_trace, HANDLED. cbn [flat_map]. by rewrite !call_only_at. }
  done.
Qed.

Lemma health_check_eq w s :
  health_check w s
  = (Ok {| health_status := "healthy"; health_timestamp := now_isoformat w;
           cache := match redis_client s with Some _ => "enabled" | None => "disabled" end;
           sources_available := ["scholar"; "pubmed"; "arxiv"; "semantic"; "openalex"] |},
     s).
Proof. done. Qed.

(** [/health] changes nothing, reports the cache as enabled exactly when a
    backend is configured, and advertises exactly the source names the
    aggregator honours: a name is advertised if and only if a request for
    that name alone gets an envelope with an entry for it. *)
Theorem health_advertises_the_honoured_sources (A : adapters) (w w' : world) (q : string)
    (name : string) (s : state) :
  cache_lookup w' (cache_key q [name]) s = (Ok None, s) →
  ∃ h, health_check w s = (Ok h, s) ∧
       (cache h = "enabled" ↔ is_Some (redis_client s)) ∧
       (name ∈ sources_available h ↔
        ∃ e s', search_all_sources A w' q (Some [name]) s = (Ok e, s') ∧
                (sources e).*1 = [name]).
Proof.
  intros Hmiss. apply cache_miss in Hmiss.
  eexists. split; [apply health_check_eq|]. simpl. split.
  { destruct (redis_client s) as [db|]; split.
    - intros _. by exists db.
    - done.
    - done.
    - by intros [? ?]. }
  rewrite search_all_sources_eq. cbv zeta. simpl default. rewrite Hmiss.
  destruct (aggregate_spec A w' q [name]) as (_ & Hkeys & _).
  split.
  - intros Hin. eexists _, _. split; [done|]. rewrite Hkeys.
    rewrite !elem_of_cons, elem_of_nil in Hin.
    destruct Hin as [->|[->|[->|[->|[->|[]]]]]]; by vm_compute.
  - intros (e & s' & [= <- _] & Hname). rewrite Hkeys in Hname.
    assert (name ∈ filter (λ name0, name0 ∈ [name]) HANDLED) as Hin.
    { rewrite Hname. left. }
    apply list_elem_of_filter in Hin as [_ Hin].
    unfold HANDLED in Hin. rewrite !elem_of_cons, elem_of_nil in *. tauto.
Qed.

Lemma health_advertises_the_honoured_sources_witness :
  ∃ h, health_check at_noon no_backend = (Ok h, no_backend) ∧
       cache h = "disabled" ∧
       ∃ e s', search_all_sources (adapters_of unreachable) at_noon "q" (Some ["pubmed"])
                 no_backend = (Ok e, s') ∧ (sources e).*1 = ["pubmed"].
Proof.
  destruct (health_advertises_the_honoured_sources (adapters_of unreachable) at_noon at_noon
              "q" "pubmed" no_backend eq_refl) as (h & Hh & _ & Hadv).
  exists h. split; [exact Hh|]. split.
  - rewrite health_check_eq in Hh. by injection Hh as <-.
  - apply Hadv. rewrite health_check_eq in Hh. injection Hh as <-. simpl.
    rewrite !elem_of_cons. tauto.
Defined.

(** * Further properties of the loops *)

Lemma scholar_loop_all_ok n i pubs fails rs recs :
  Forall2 scholar_ok (take (Z.to_nat (n - i)) pubs) recs →
  (scholar_loop n i pubs fails rs).2 = (rs ++ recs)%list.
Proof.
  revert i rs recs. induction pubs as [|pub pubs IH]; intros i rs recs Hok.
  { rewrite take_nil in Hok. apply Forall2_nil_inv_l in Hok as ->.
    rewrite app_nil_r. simpl. by destruct fails. }
  simpl. destruct (Z.geb_spec i n) as [Hge|Hlt].
  { replace (Z.to_nat (n - i)) with 0%nat in Hok by lia.
    apply Forall2_nil_inv_l in Hok as ->. by rewrite app_nil_r. }
  replace (Z.to_nat (n - i)) with (S (Z.to_nat (n - (i + 1)))) in Hok by lia.
  rewrite firstn_cons in Hok.
  apply Forall2_cons_inv_l in Hok as (r & recs' & (bib & t & Hbib & Hr & Ht) & Hrest & ->).
  rewrite bind_lift, Hbib, bind_lift, Hr, bind_append, bind_lift, Ht.
  rewrite (IH _ _ _ Hrest). by rewrite <- app_assoc.
Qed.

(** When the publications Google Scholar yields are well formed, the
    adapter returns the records of the first [num_results] of them, in
    order, whether or not the iterator fails afterwards. *)
Theorem scholar_returns_the_first_publications (up : upstream) (q : string) (n : Z)
    (stream : pub_stream) (recs : list NormalizedRecord) :
  scholarly_search_pubs up q = Ok stream →
  Forall2 scholar_ok (take (Z.to_nat n) (yielded stream)) recs →
  search_google_scholar up q n = Ok recs.
Proof.
  intros Hs Hok. rewrite search_google_scholar_returns. f_equal.
  unfold scholar_body. rewrite bind_lift, Hs.
  apply (scholar_loop_all_ok n 0 _ _ []). by rewrite Z.sub_0_r.
Qed.

Lemma scholar_returns_the_first_publications_witness :
  ∃ r, search_google_scholar scholar_titled_first "q" 1 = Ok [r] ∧ title r = PStr "Second".
Proof.
  eexists. split.
  - apply (scholar_returns_the_first_publications scholar_titled_first "q" 1
             {| yielded := [titled_pub; untitled_pub]; then_raises := true |}).
    + reflexivity.
    + constructor; [|constructor].
      exists (PDict [("title", PStr "Second")]), (PStr "Second").
      split; [reflexivity|]. split; reflexivity.
  - reflexivity.
Defined.

Lemma prefix_ok_all {A B} (f : A → result B) (xs : list A) :
  Forall (λ x, ∃ y, f x = Ok y) xs → Forall2 (λ x y, f x = Ok y) xs (prefix_ok f xs).
Proof.
  induction 1 as [|x xs [y Hy] _ IH]; simpl; [constructor|].
  rewrite Hy. by constructor.
Qed.

(** arXiv, Semantic Scholar and OpenAlex pass the limit on to the upstream
    and do not cut the answer themselves: when every item of the answer
    normalizes, the adapter returns one record per item, however many items
    the upstream sent. *)
Theorem adapters_do_not_cut_the_answer (up : upstream) (q : string) (n : Z) :
  (Forall (λ entry, ∃ r, arxiv_record entry = Ok r)
          (entries_of (arxiv_query up ("all:" +:+ q) n)) →
   ∃ rs, search_arxiv up q n = Ok rs ∧
         Forall2 (λ entry r, arxiv_record entry = Ok r)
                 (entries_of (arxiv_query up ("all:" +:+ q) n)) rs) ∧
  (Forall (λ paper, ∃ r, semantic_record paper = Ok r)
          (items_of (semantic_search up q n) "data") →
   ∃ rs, search_semantic_scholar_async up q n = Ok rs ∧
         Forall2 (λ paper r, semantic_record paper = Ok r)
                 (items_of (semantic_search up q n) "data") rs) ∧
  (Forall (λ work, ∃ r, openalex_record work = Ok r)
          (items_of (openalex_works up q n) "results") →
   ∃ rs, search_openalex_async up q n = Ok rs ∧
         Forall2 (λ work r, openalex_record work = Ok r)
                 (items_of (openalex_works up q n) "results") rs).
Proof.
  split; [|split]; intros Hall; eexists.
  - split; [apply search_arxiv_eq|]. by apply prefix_ok_all.
  - split; [apply search_semantic_scholar_async_eq|]. by apply prefix_ok_all.
  - split; [apply search_openalex_async_eq|]. by apply prefix_ok_all.
Qed.

Lemma adapters_do_not_cut_the_answer_witness :
  ∃ rs, search_arxiv arxiv_overshoots "q" 10 = Ok rs ∧ length rs = 12%nat.
Proof.
  destruct (proj1 (adapters_do_not_cut_the_answer arxiv_overshoots "q" 10))
    as (rs & Hrs & Hall).
  - repeat (apply Forall_cons; split; [eexists; reflexivity|]). apply Forall_nil_2.
  - exists rs. split; [exact Hrs|]. exact (eq_sym (Forall2_length _ _ _ Hall)).
Defined.

Lemma assignments_last_wins (assigns : list (Z * string)) words :
  (∀ p w, (p, w) ∈ assigns → (0 ≤ p < Z.of_nat (length words))%Z) →
  ∃ words',
    fold_r (λ words '(p, w), list_set words p w) assigns words = Ok words' ∧
    length words' = length words ∧
    ∀ i, words' !! i = match last_assigned assigns (Z.of_nat i) with
                       | Some w => if decide (i < length words)%nat then Some w else None
                       | None => words !! i
                       end.
Proof.
  revert words. induction assigns as [|[p0 w0] assigns IH]; intros words Hrange.
  { exists words. by repeat split. }
  assert (0 ≤ p0 < Z.of_nat (length words))%Z as Hp0 by (apply (Hrange p0 w0); left).
  destruct (IH (<[Z.to_nat p0 := w0]> words)) as (words' & Hrun & Hlen & Hlook).
  { intros p w Hin. rewrite length_insert. apply (Hrange p w). by right. }
  exists words'. simpl. unfold mbind, result_bind. rewrite (list_set_in_range _ _ _ Hp0).
  split; [exact Hrun|]. split; [by rewrite Hlen, length_insert|].
  intros i. rewrite Hlook, length_insert.
  destruct (last_assigned assigns (Z.of_nat i)) as [w|]; [done|].
  destruct (decide (p0 = Z.of_nat i)) as [->|Hne].
  - rewrite Nat2Z.id. rewrite decide_True by lia. apply list_lookup_insert_eq. lia.
  - apply list_lookup_insert_ne. lia.
Qed.

(** When two words of an inverted index claim the same position, the word
    that comes later in the index is the one kept: every slot holds the word
    of the last assignment made to it, and the empty string if there was
    none. *)
Theorem later_word_takes_the_position (index : list (string * list Z)) :
  index ≠ [] →
  (∀ word positions, (word, positions) ∈ index → positions ≠ []) →
  (∀ word p, occupies index word p → (0 ≤ p)%Z) →
  ∃ words,
    place_words index = Ok words ∧
    ∀ i, (i < length words)%nat →
         words !! i = Some (default "" (last_assigned (assignments index) (Z.of_nat i))).
Proof.
  intros Hne Hpos Hnonneg.
  destruct (word_maxima index Hpos) as (tops & Htops & Htne & Hocc & Hbound).
  destruct (py_max tops) as [top|e] eqn:Htop.
  2: { destruct tops; [by destruct (Htne Hne)|done]. }
  destruct (py_max_spec _ _ Htop) as [Hin Hle].
  destruct (assignments_last_wins (assignments index) (replicate (Z.to_nat (top + 1)) ""))
    as (words & Hrun & Hlen & Hlook).
  { intros p word Hin'. apply elem_of_assignments in Hin'. rewrite length_replicate.
    destruct (Hbound word p Hin') as (t & Ht & ?).
    specialize (Hnonneg word p Hin'). specialize (Hle t Ht). lia. }
  exists words. split.
  { unfold place_words, mbind, result_bind. rewrite Htops, Htop.
    by rewrite nested_loops_assignments. }
  intros i Hi. rewrite Hlook. rewrite Hlen in Hi.
  destruct (last_assigned (assignments index) (Z.of_nat i)) as [w|]; simpl.
  - by rewrite decide_True.
  - apply lookup_replicate_2. by rewrite length_replicate in Hi.
Qed.

Lemma later_word_takes_the_position_witness :
  ∃ words, place_words [("deep", [0; 1]); ("learning", [1])] = Ok words ∧
           words !! 1%nat = Some "learning".
Proof.
  destruct (later_word_takes_the_position [("deep", [0; 1]); ("learning", [1])])
    as (words & Hplace & Hlook).
  - done.
  - intros word positions Hin.
    repeat (apply elem_of_cons in Hin as [[= -> ->]|Hin]); try done.
    by apply elem_of_nil in Hin.
  - intros word p (ps & Hin & Hp).
    repeat (apply elem_of_cons in Hin as [[= -> ->]|Hin]);
      [| |by apply elem_of_nil in Hin];
      repeat (apply elem_of_cons in Hp as [->|Hp]); try lia; by apply elem_of_nil in Hp.
  - exists words. split; [exact Hplace|].
    assert (length words = 2%nat) as Hlen.
    { vm_compute in Hplace. by injection Hplace as <-. }
    apply (Hlook 1%nat). lia.
Defined.
